(** * The chat broker of turbo-websocket (apps/api/src/websocket.ts)

    A shallow embedding of [class ChatServer] and of the callbacks that
    [setupWebSocketServer] registers, followed by the properties of the
    specification that concern them.

    Conventions of the embedding.
    - A JavaScript string is a [string] whose characters are read as
      code units below 256 (the Latin-1 block); [trim], [toLowerCase] and
      the JSON rendering are written out for that range.
    - A JavaScript number that the program only prints or stores
      ([Date.now()]) is a [Z]. The counter [nextUserId] is a [Z] whose
      [++] is the one of a double: see [postIncrement].
    - [Date.now()], [Math.random()] and [ws.readyState] belong to the
      environment of one callback run: see [Env].
    - [ws.send(JSON.stringify(message))] is recorded as the pair of the
      socket and the message object.
    - [log(...)] calls have no effect on the server and are left out. *)

From Stdlib Require Import String Ascii List ZArith Arith Bool Lia FinFun.
From Stdlib Require Import DecimalString DecimalZ DecimalPos.
Import ListNotations.

Set Warnings "-register-all".

Local Open Scope string_scope.
Local Open Scope list_scope.
Local Open Scope nat_scope.

(* ================================================================= *)
(** ** JavaScript values and the built-ins the server calls *)

Module JS.

(** White space and line terminators of ECMAScript below code unit 256:
    TAB, LF, VT, FF, CR, SPACE and NO-BREAK SPACE. *)
Definition isWhiteSpace (c : ascii) : bool :=
  let n := nat_of_ascii c in
  ((9 <=? n) && (n <=? 13)) || (n =? 32) || (n =? 160).

Fixpoint trimStart (s : string) : string :=
  match s with
  | EmptyString => EmptyString
  | String c s' => if isWhiteSpace c then trimStart s' else s
  end.

Fixpoint trimEnd (s : string) : string :=
  match s with
  | EmptyString => EmptyString
  | String c s' =>
      match trimEnd s' with
      | EmptyString => if isWhiteSpace c then EmptyString else String c EmptyString
      | t => String c t
      end
  end.

(** [String.prototype.trim] *)
Definition trim (s : string) : string := trimEnd (trimStart s).

(** Lower-case mapping of one code unit: A-Z, and the Latin-1 capitals
    U+00C0..U+00DE except the multiplication sign U+00D7. *)
Definition lowerChar (c : ascii) : ascii :=
  let n := nat_of_ascii c in
  if ((65 <=? n) && (n <=? 90))
     || ((192 <=? n) && (n <=? 222) && negb (n =? 215))
  then ascii_of_nat (n + 32)
  else c.

(** [String.prototype.toLowerCase] *)
Fixpoint toLowerCase (s : string) : string :=
  match s with
  | EmptyString => EmptyString
  | String c s' => String (lowerChar c) (toLowerCase s')
  end.

(** [`${n}`] for an integral number. *)
Definition numberToString (n : Z) : string :=
  NilZero.string_of_int (Z.to_int n).

Definition dquote : ascii := ascii_of_nat 34.
Definition backslash : ascii := ascii_of_nat 92.

Definition hexDigit (n : nat) : ascii :=
  ascii_of_nat (if n <? 10 then 48 + n else 87 + n).

(** The characters [JSON.stringify] writes for one code unit of a
    string. *)
Definition escapeChar (c : ascii) : string :=
  let n := nat_of_ascii c in
  if n =? 34 then String backslash (String dquote EmptyString)
  else if n =? 92 then String backslash (String backslash EmptyString)
  else if n =? 8 then String backslash "b"
  else if n =? 9 then String backslash "t"
  else if n =? 10 then String backslash "n"
  else if n =? 12 then String backslash "f"
  else if n =? 13 then String backslash "r"
  else if n <? 32 then
    String backslash
      ("u00" ++ String (hexDigit (n / 16)) (String (hexDigit (n mod 16)) EmptyString))%string
  else String c EmptyString.

Fixpoint escape (s : string) : string :=
  match s with
  | EmptyString => EmptyString
  | String c s' => (escapeChar c ++ escape s')%string
  end.

(** [JSON.stringify] of a string. *)
Definition quote (s : string) : string :=
  String dquote (escape s ++ String dquote EmptyString)%string.

(** What [JSON.parse] can return, and [undefined] for a property that
    is not there. Of a number only its being zero is ever inspected. *)
Inductive Value : Type :=
| Undefined
| Null
| Bool (b : bool)
| Number (n : Z)
| Str (s : string)
| Array (items : list Value)
| Object (props : list (string * Value)).

(** The exceptions a callback can raise: [TypeError] from a property
    read on [null]/[undefined] or from calling what is not a function,
    [SyntaxError] from [JSON.parse]. *)
Inductive Exception : Type :=
| TypeError
| SyntaxError.

(** ToBoolean *)
Definition truthy (v : Value) : bool :=
  match v with
  | Undefined | Null => false
  | Bool b => b
  | Number n => negb (n =? 0)%Z
  | Str s => negb (s =? EmptyString)%string
  | Array _ | Object _ => true
  end.

Fixpoint lookup (k : string) (props : list (string * Value)) : Value :=
  match props with
  | [] => Undefined
  | (k', v) :: rest => if (k' =? k)%string then v else lookup k rest
  end.

(** [v.k] for one of the keys the server reads ([type], [username],
    [content]): none of them is inherited from a prototype, so only an
    object's own properties answer. *)
Definition getProp (v : Value) (k : string) : Value + Exception :=
  match v with
  | Undefined | Null => inr TypeError
  | Object props => inl (lookup k props)
  | _ => inl Undefined
  end.

(** [v.trim()] *)
Definition callTrim (v : Value) : string + Exception :=
  match v with
  | Str s => inl (trim s)
  | _ => inr TypeError
  end.

End JS.

(* ================================================================= *)
(** ** Data model *)

(** A [WebSocket] object of the [ws] library, known by its identity. *)
Definition WebSocket : Type := nat.

(** [ws.readyState] *)
Inductive ReadyState : Type :=
| CONNECTING
| OPEN
| CLOSING
| CLOSED.

Definition isOpen (r : ReadyState) : bool :=
  match r with
  | OPEN => true
  | _ => false
  end.

(** The [type] field of [interface ChatMessage]. *)
Inductive MessageType : Type :=
| message
| user_joined
| user_left
| user_list.

Module ChatMessage.
Record t : Type := mk {
  id : string;
  type : MessageType;
  content : string;
  username : string;
  timestamp : Z;
  userId : option string
}.
End ChatMessage.

Module User.
Record t : Type := mk {
  id : string;
  username : string;
  ws : WebSocket
}.
End User.

(** [Map<string, V>]: the entries in insertion order, one per key. *)
Module Map.
Definition t (V : Type) : Type := list (string * V).

Definition empty {V} : t V := [].

Fixpoint get {V} (m : t V) (k : string) : option V :=
  match m with
  | [] => None
  | (k', v) :: rest => if (k' =? k)%string then Some v else get rest k
  end.

(** [m.set(k, v)]: a key that is there keeps its place, a new one goes
    to the end. *)
Fixpoint set {V} (m : t V) (k : string) (v : V) : t V :=
  match m with
  | [] => [(k, v)]
  | (k', v') :: rest =>
      if (k' =? k)%string then (k', v) :: rest else (k', v') :: set rest k v
  end.

(** [m.delete(k)] *)
Definition delete {V} (m : t V) (k : string) : t V :=
  filter (fun e => negb (fst e =? k)%string) m.

(** [Array.from(m.keys())] *)
Definition keys {V} (m : t V) : list string := map fst m.

(** [Array.from(m.values())], also the order of [m.forEach]. *)
Definition values {V} (m : t V) : list V := map snd m.

Definition size {V} (m : t V) : nat := length m.
End Map.

(** The fields of [class ChatServer] ([wss] is the transport). *)
Record ChatServer : Type := mkChatServer {
  users : Map.t User.t;
  messageHistory : list ChatMessage.t;
  nextUserId : Z
}.

(** [new ChatServer(server)] *)
Definition newChatServer : ChatServer :=
  {| users := Map.empty; messageHistory := []; nextUserId := 1%Z |}.

(* ================================================================= *)
(** ** The monad of one callback run *)

(** What one run of a callback reads from outside the server: the
    value of the [k]-th reading of the clock or of the random source
    (readings are numbered together, in program order, from 0), and the
    [readyState] of every socket, which no step of the server changes. *)
Record Env : Type := mkEnv {
  dateNow : nat -> Z;
  mathRandom : nat -> string;
  readyState : WebSocket -> ReadyState
}.

(** One [ws.send]: the socket and the message that was serialised. *)
Definition Send : Type := (WebSocket * ChatMessage.t)%type.

Record World : Type := mkWorld {
  server : ChatServer;
  sent : list Send;
  ticks : nat
}.

Inductive Completion (A : Type) : Type :=
| Normal (a : A)
| Throw (e : JS.Exception).
Arguments Normal {A} a.
Arguments Throw {A} e.

Definition M (A : Type) : Type := Env -> World -> Completion A * World.

Definition ret {A} (a : A) : M A := fun _ w => (Normal a, w).

Definition bind {A B} (m : M A) (f : A -> M B) : M B :=
  fun env w =>
    match m env w with
    | (Normal a, w') => f a env w'
    | (Throw e, w') => (Throw e, w')
    end.

Declare Scope js_scope.
Delimit Scope js_scope with js.
Notation "x <- m ;; k" := (bind m (fun x => k))
  (at level 61, m at next level, right associativity) : js_scope.
Notation "m ;; k" := (bind m (fun _ => k))
  (at level 61, right associativity) : js_scope.
Local Open Scope js_scope.

Definition throw {A} (e : JS.Exception) : M A := fun _ w => (Throw e, w).

(** [try { body } catch (error) { handler }] *)
Definition tryCatch {A} (body : M A) (handler : JS.Exception -> M A) : M A :=
  fun env w =>
    match body env w with
    | (Normal a, w') => (Normal a, w')
    | (Throw e, w') => handler e env w'
    end.

Definition lift {A} (r : A + JS.Exception) : M A :=
  match r with
  | inl a => ret a
  | inr e => throw e
  end.

Definition getServer : M ChatServer := fun _ w => (Normal (server w), w).

Definition putServer (s : ChatServer) : M unit :=
  fun _ w => (Normal tt, {| server := s; sent := sent w; ticks := ticks w |}).

Definition tick : M nat :=
  fun _ w =>
    (Normal (ticks w),
     {| server := server w; sent := sent w; ticks := S (ticks w) |}).

(** [Date.now()] *)
Definition DateNow : M Z :=
  fun env w => bind tick (fun k => ret (dateNow env k)) env w.

(** [Math.random().toString(36).substr(2, 9)] *)
Definition MathRandom36 : M string :=
  fun env w => bind tick (fun k => ret (mathRandom env k)) env w.

(** [ws.readyState === WebSocket.OPEN] *)
Definition isReady (ws : WebSocket) : M bool :=
  fun env w => (Normal (isOpen (readyState env ws)), w).

(** [ws.send(JSON.stringify(message))] *)
Definition wsSend (ws : WebSocket) (msg : ChatMessage.t) : M unit :=
  fun _ w =>
    (Normal tt,
     {| server := server w; sent := sent w ++ [(ws, msg)]; ticks := ticks w |}).

(** [xs.forEach(f)] *)
Fixpoint forEach {A} (xs : list A) (f : A -> M unit) : M unit :=
  match xs with
  | [] => ret tt
  | x :: rest => f x ;; forEach rest f
  end.

(* ================================================================= *)
(** ** The methods of [ChatServer] *)

Definition withUsers (s : ChatServer) (us : Map.t User.t) : ChatServer :=
  {| users := us; messageHistory := messageHistory s; nextUserId := nextUserId s |}.

Definition withHistory (s : ChatServer) (h : list ChatMessage.t) : ChatServer :=
  {| users := users s; messageHistory := h; nextUserId := nextUserId s |}.

Definition withNextUserId (s : ChatServer) (n : Z) : ChatServer :=
  {| users := users s; messageHistory := messageHistory s; nextUserId := n |}.

(** [generateMessageId]: [`msg_${Date.now()}_${Math.random()...}`] *)
Definition generateMessageId : M string :=
  now <- DateNow ;;
  r <- MathRandom36 ;;
  ret ("msg_" ++ JS.numberToString now ++ "_" ++ r)%string.

(** [sendMessage] *)
Definition sendMessage (ws : WebSocket) (msg : ChatMessage.t) : M unit :=
  ready <- isReady ws ;;
  if ready then wsSend ws msg else ret tt.

(** The object literal of every notice of the server itself: the fields
    are evaluated in the order they are written. *)
Definition systemMessage (ty : MessageType) (text : string) : M ChatMessage.t :=
  id <- generateMessageId ;;
  now <- DateNow ;;
  ret {| ChatMessage.id := id;
         ChatMessage.type := ty;
         ChatMessage.content := text;
         ChatMessage.username := "System";
         ChatMessage.timestamp := now;
         ChatMessage.userId := Some "system" |}.

(** [sendError] *)
Definition sendError (ws : WebSocket) (error : string) : M unit :=
  msg <- systemMessage message ("Error: " ++ error)%string ;;
  sendMessage ws msg.

(** [Array.from(this.users.values()).map(u => ({id: u.id, username: u.username}))] *)
Definition members (us : Map.t User.t) : list (string * string) :=
  map (fun u => (User.id u, User.username u)) (Map.values us).

(** [JSON.stringify] of one [{id, username}] object, and of their array. *)
Definition memberJSON (m : string * string) : string :=
  ("{" ++ JS.quote "id" ++ ":" ++ JS.quote (fst m) ++ ","
       ++ JS.quote "username" ++ ":" ++ JS.quote (snd m) ++ "}")%string.

Definition membersJSON (ms : list (string * string)) : string :=
  ("[" ++ String.concat "," (map memberJSON ms) ++ "]")%string.

(** The [content] of a [user_list] message. *)
Definition userListJSON (us : Map.t User.t) : string := membersJSON (members us).

(** [sendUserList] *)
Definition sendUserList (ws : WebSocket) : M unit :=
  id <- generateMessageId ;;
  s <- getServer ;;
  now <- DateNow ;;
  sendMessage ws
    {| ChatMessage.id := id;
       ChatMessage.type := user_list;
       ChatMessage.content := userListJSON (users s);
       ChatMessage.username := "System";
       ChatMessage.timestamp := now;
       ChatMessage.userId := Some "system" |}.

(** [sendMessageHistory] *)
Definition sendMessageHistory (ws : WebSocket) : M unit :=
  s <- getServer ;;
  forEach (messageHistory s) (fun msg => sendMessage ws msg).

(** [broadcastMessage] *)
Definition broadcastMessage (msg : ChatMessage.t) : M unit :=
  s <- getServer ;;
  forEach (Map.values (users s)) (fun user => sendMessage (User.ws user) msg).

(** [broadcastUserList] *)
Definition broadcastUserList : M unit :=
  s <- getServer ;;
  forEach (Map.values (users s)) (fun user => sendUserList (User.ws user)).

(** [!v || v.trim().length === 0] *)
Definition isBlank (v : JS.Value) : M bool :=
  if negb (JS.truthy v) then ret true
  else
    t <- lift (JS.callTrim v) ;;
    ret (String.length t =? 0).

(** The test of [find] in [handleUserJoin]. *)
Definition sameName (trimmedUsername : string) (user : User.t) : bool :=
  (JS.toLowerCase (User.username user) =? JS.toLowerCase trimmedUsername)%string.

(** [handleUserJoin] *)
Definition handleUserJoin (ws : WebSocket) (userId : string) (username : JS.Value)
  : M unit :=
  blank <- isBlank username ;;
  if blank then sendError ws "Username is required"
  else
    trimmedUsername <- lift (JS.callTrim username) ;;
    s <- getServer ;;
    match find (sameName trimmedUsername) (Map.values (users s)) with
    | Some existingUser => sendError ws "Username already taken"
    | None =>
        putServer
          (withUsers s
             (Map.set (users s) userId
                {| User.id := userId; User.username := trimmedUsername; User.ws := ws |})) ;;
        joinMessage <-
          systemMessage user_joined (trimmedUsername ++ " joined the chat")%string ;;
        broadcastMessage joinMessage ;;
        broadcastUserList ;;
        sendMessageHistory ws
    end.

(** [messageHistory.push(msg)] *)
Definition pushHistory (msg : ChatMessage.t) : M unit :=
  s <- getServer ;;
  putServer (withHistory s (messageHistory s ++ [msg])).

(** [messageHistory.shift()] *)
Definition shiftHistory : M unit :=
  s <- getServer ;;
  putServer (withHistory s (tl (messageHistory s))).

(** [handleChatMessage] *)
Definition handleChatMessage (userId : string) (content : JS.Value) : M unit :=
  s <- getServer ;;
  match Map.get (users s) userId with
  | None => ret tt
  | Some user =>
      blank <- isBlank content ;;
      if blank then ret tt
      else
        id <- generateMessageId ;;
        text <- lift (JS.callTrim content) ;;
        now <- DateNow ;;
        let msg :=
          {| ChatMessage.id := id;
             ChatMessage.type := message;
             ChatMessage.content := text;
             ChatMessage.username := User.username user;
             ChatMessage.timestamp := now;
             ChatMessage.userId := Some (User.id user) |} in
        pushHistory msg ;;
        s' <- getServer ;;
        (if 100 <? length (messageHistory s') then shiftHistory else ret tt) ;;
        broadcastMessage msg
  end.

(** [handleUserDisconnect] *)
Definition handleUserDisconnect (userId : string) : M unit :=
  s <- getServer ;;
  match Map.get (users s) userId with
  | Some user =>
      putServer (withUsers s (Map.delete (users s) userId)) ;;
      leaveMessage <-
        systemMessage user_left (User.username user ++ " left the chat")%string ;;
      broadcastMessage leaveMessage ;;
      broadcastUserList
  | None => ret tt
  end.

(** [handleMessage]: the [switch] compares [message.type] with [===]. *)
Definition handleMessage (ws : WebSocket) (userId : string) (msg : JS.Value)
  : M unit :=
  ty <- lift (JS.getProp msg "type") ;;
  match ty with
  | JS.Str k =>
      if (k =? "join")%string then
        username <- lift (JS.getProp msg "username") ;;
        handleUserJoin ws userId username
      else if (k =? "message")%string then
        content <- lift (JS.getProp msg "content") ;;
        handleChatMessage userId content
      else sendError ws "Unknown message type"
  | _ => sendError ws "Unknown message type"
  end.

(* ================================================================= *)
(** ** The callbacks registered by [setupWebSocketServer] *)

(** [JSON.parse(data.toString())]: the value, or [None] for a text that
    is not JSON, on which it throws. *)
Definition jsonParse (data : option JS.Value) : M JS.Value :=
  match data with
  | Some v => ret v
  | None => throw JS.SyntaxError
  end.

(** [n++] on the counter. A JavaScript number is a double: it holds the
    integers up to 2^53 = 9007199254740992 exactly, and [n + 1] is
    exact below that. At 2^53 the sum is not representable and rounds
    back to 2^53 (ties to even), so the counter stays where it is.
    Written for the values 0 .. 2^53, the only ones the counter takes
    (see [counter_range]). *)
Definition postIncrement (n : Z) : Z :=
  if (n <? 9007199254740992)%Z then (n + 1)%Z else n.

(** [wss.on("connection", ...)]: returns the [userId] its closures keep. *)
Definition onConnection (ws : WebSocket) : M string :=
  s <- getServer ;;
  let userId := ("user_" ++ JS.numberToString (nextUserId s))%string in
  putServer (withNextUserId s (postIncrement (nextUserId s))) ;;
  welcome <- systemMessage user_joined "Welcome to the chat!" ;;
  sendMessage ws welcome ;;
  sendUserList ws ;;
  ret userId.

(** [ws.on("message", ...)] *)
Definition onMessage (ws : WebSocket) (userId : string) (data : option JS.Value)
  : M unit :=
  tryCatch
    (msg <- jsonParse data ;; handleMessage ws userId msg)
    (fun error => sendError ws "Invalid message format").

(** [ws.on("close", ...)] *)
Definition onClose (userId : string) : M unit :=
  handleUserDisconnect userId.

(** [ws.on("error", ...)] *)
Definition onError (userId : string) : M unit :=
  handleUserDisconnect userId.

(** [getConnectedUsersCount] *)
Definition getConnectedUsersCount (s : ChatServer) : nat := Map.size (users s).

(* ================================================================= *)
(** ** The event loop *)

(** One callback run to completion on the server [s]: the completion,
    the server it leaves and the [ws.send] calls it made, in order. *)
Definition run {A} (m : M A) (env : Env) (s : ChatServer)
  : Completion A * ChatServer * list Send :=
  let '(r, w) := m env {| server := s; sent := []; ticks := 0 |} in
  (r, server w, sent w).

Definition after {A} (m : M A) (env : Env) (s : ChatServer) : ChatServer :=
  snd (fst (run m env s)).

Definition outbox {A} (m : M A) (env : Env) (s : ChatServer) : list Send :=
  snd (run m env s).

Definition completion {A} (m : M A) (env : Env) (s : ChatServer) : Completion A :=
  fst (fst (run m env s)).

(** What the transport delivers to the server. The [ws] and [userId] of
    a [Message], [Close] or [Error] are those the callback's closure
    holds. *)
Inductive Event : Type :=
| Connection (ws : WebSocket)
| Message (ws : WebSocket) (userId : string) (data : option JS.Value)
| Close (userId : string)
| Error (userId : string).

Definition dispatch (ev : Event) : M unit :=
  match ev with
  | Connection ws => onConnection ws ;; ret tt
  | Message ws userId data => onMessage ws userId data
  | Close userId => onClose userId
  | Error userId => onError userId
  end.

Definition step (s : ChatServer) (e : Env * Event) : ChatServer :=
  after (dispatch (snd e)) (fst e) s.

(** The server after a sequence of events, each with the environment
    of its callback run. *)
Definition runAll (trace : list (Env * Event)) (s : ChatServer) : ChatServer :=
  fold_left step trace s.

(* ================================================================= *)
(** ** Vocabulary of the properties *)

(** The sends among [out] that reach the wire: [sendMessage] drops a
    message whose socket is not [OPEN]. *)
Definition transmit (env : Env) (out : list Send) : list Send :=
  filter (fun p => isOpen (readyState env (fst p))) out.

(** The message id generated when the environment is at reading [k]. *)
Definition messageIdAt (env : Env) (k : nat) : string :=
  ("msg_" ++ JS.numberToString (dateNow env k) ++ "_" ++ mathRandom env (S k))%string.

(** The notice [systemMessage ty text] builds from reading [k] on. *)
Definition systemMessageAt (env : Env) (k : nat) (ty : MessageType) (text : string)
  : ChatMessage.t :=
  {| ChatMessage.id := messageIdAt env k;
     ChatMessage.type := ty;
     ChatMessage.content := text;
     ChatMessage.username := "System";
     ChatMessage.timestamp := dateNow env (S (S k));
     ChatMessage.userId := Some "system" |}.

(** The error notice of [sendError]. *)
Definition errorNoticeAt (env : Env) (k : nat) (error : string) : ChatMessage.t :=
  systemMessageAt env k message ("Error: " ++ error)%string.

(** The roster snapshot of the users [us], built from reading [k] on. *)
Definition userListAt (env : Env) (k : nat) (us : Map.t User.t) : ChatMessage.t :=
  systemMessageAt env k user_list (userListJSON us).

(** The chat message [handleChatMessage] builds for [user]. *)
Definition chatMessageAt (env : Env) (k : nat) (user : User.t) (text : string)
  : ChatMessage.t :=
  {| ChatMessage.id := messageIdAt env k;
     ChatMessage.type := message;
     ChatMessage.content := text;
     ChatMessage.username := User.username user;
     ChatMessage.timestamp := dateNow env (S (S k));
     ChatMessage.userId := Some (User.id user) |}.

(** One message for every user of [us], in the order of the map. *)
Definition toAll (us : Map.t User.t) (msg : ChatMessage.t) : list Send :=
  map (fun user => (User.ws user, msg)) (Map.values us).

(** A roster snapshot of [us] for each of [targets] in turn, each one a
    message of its own, the first built from reading [k] on. *)
Fixpoint rosterSends (env : Env) (k : nat) (us : Map.t User.t) (targets : list User.t)
  : list Send :=
  match targets with
  | [] => []
  | user :: rest => (User.ws user, userListAt env k us) :: rosterSends env (k + 3) us rest
  end.

Definition rosterToAll (env : Env) (k : nat) (us : Map.t User.t) : list Send :=
  rosterSends env k us (Map.values us).

(** The history for one socket, oldest first. *)
Definition historyTo (ws : WebSocket) (h : list ChatMessage.t) : list Send :=
  map (fun msg => (ws, msg)) h.

(** [w] after [k] more readings of the environment and the sends [out]. *)
Definition emit (w : World) (out : list Send) (k : nat) : World :=
  {| server := server w; sent := sent w ++ out; ticks := ticks w + k |}.

Definition setServer (w : World) (s : ChatServer) : World :=
  {| server := s; sent := sent w; ticks := ticks w |}.

(** The users after a join of [userId] under the name [name] is
    accepted on the socket [ws]. *)
Definition joined (s : ChatServer) (ws : WebSocket) (userId name : string)
  : Map.t User.t :=
  Map.set (users s) userId
    {| User.id := userId; User.username := name; User.ws := ws |}.

(** [messageHistory] after [push] and the [shift] that keeps it at
    100 entries. *)
Definition pushBounded (h : list ChatMessage.t) (msg : ChatMessage.t)
  : list ChatMessage.t :=
  if 100 <? length (h ++ [msg]) then tl (h ++ [msg]) else h ++ [msg].

(** The requests the web client writes: [{type: "join", username}] and
    [{type: "message", content}]. *)
Definition joinRequest (username : string) : JS.Value :=
  JS.Object [("type", JS.Str "join"); ("username", JS.Str username)].

Definition chatRequest (content : string) : JS.Value :=
  JS.Object [("type", JS.Str "message"); ("content", JS.Str content)].

(** [msg.type === k] and [msg.field] is the string [v]. *)
Definition isRequest (msg : JS.Value) (k field v : string) : Prop :=
  JS.getProp msg "type" = inl (JS.Str k) /\ JS.getProp msg field = inl (JS.Str v).

(** The ways an event changes the server: not at all, the counter of a
    new connection, an accepted join, an accepted chat message, the
    first disconnect of a joined session. *)
Inductive Transition (env : Env) (s : ChatServer) : Event -> ChatServer -> Prop :=
| T_unchanged ev :
    Transition env s ev s
| T_connection ws :
    Transition env s (Connection ws) (withNextUserId s (postIncrement (nextUserId s)))
| T_join ws userId msg name :
    isRequest msg "join" "username" name ->
    JS.trim name <> EmptyString ->
    find (sameName (JS.trim name)) (Map.values (users s)) = None ->
    Transition env s (Message ws userId (Some msg))
      (withUsers s (joined s ws userId (JS.trim name)))
| T_chat ws userId msg text user :
    isRequest msg "message" "content" text ->
    Map.get (users s) userId = Some user ->
    JS.trim text <> EmptyString ->
    Transition env s (Message ws userId (Some msg))
      (withHistory s
         (pushBounded (messageHistory s) (chatMessageAt env 0 user (JS.trim text))))
| T_disconnect ev userId user :
    ev = Close userId \/ ev = Error userId ->
    Map.get (users s) userId = Some user ->
    Transition env s ev (withUsers s (Map.delete (users s) userId)).

(** The display names of the joined sessions, lower-cased, in the order
    of the map. *)
Definition displayNames (s : ChatServer) : list string :=
  map (fun user => JS.toLowerCase (User.username user)) (Map.values (users s)).

Record Invariant (s : ChatServer) : Prop := {
  keys_unique : NoDup (Map.keys (users s));
  names_unique : NoDup (displayNames s);
  names_nonblank : Forall (fun user => User.username user <> EmptyString) (Map.values (users s));
  ids_are_keys : Forall (fun e => User.id (snd e) = fst e) (users s);
  history_bounded : length (messageHistory s) <= 100;
  history_messages :
    Forall (fun msg => ChatMessage.type msg = message) (messageHistory s)
}.

Definition start (s : ChatServer) : World := {| server := s; sent := []; ticks := 0 |}.

(** The specification's [recordMessage], in its words: [NotJoined] when
    the session has no bound name, [EmptyMessage] when the trimmed text
    is empty, otherwise the [message] event that goes into the history. *)
Module Spec.
Definition recordMessage (env : Env) (s : ChatServer) (sessionId rawText : string)
  : option ChatMessage.t :=
  match Map.get (users s) sessionId with
  | None => None
  | Some user =>
      if (JS.trim rawText =? EmptyString)%string then None
      else Some (chatMessageAt env 0 user (JS.trim rawText))
  end.
End Spec.

(** The last [k] elements of a list. *)
Definition lastN {A} (k : nat) (l : list A) : list A := skipn (length l - k) l.

(** A sequence of [sendMessage] requests, each with the environment of
    its run, the session it comes from and its content. *)
Definition sendMessages (calls : list (Env * string * string)) (s : ChatServer)
  : ChatServer :=
  fold_left
    (fun s c =>
       let '(env, userId, text) := c in
       after (handleChatMessage userId (JS.Str text)) env s)
    calls s.

(** The events of the requests among [calls] that [recordMessage]
    accepts, in the order they are sent. *)
Fixpoint recorded (calls : list (Env * string * string)) (s : ChatServer)
  : list ChatMessage.t :=
  match calls with
  | [] => []
  | (env, userId, text) :: rest =>
      match Spec.recordMessage env s userId text with
      | Some msg => [msg]
      | None => []
      end
      ++ recorded rest (after (handleChatMessage userId (JS.Str text)) env s)
  end.

(** The joined sessions of [us] as a roster shows them: the id and the
    display name of every entry, in the order of the map. *)
Definition entries (us : Map.t User.t) : list (string * string) :=
  map (fun e => (User.id (snd e), User.username (snd e))) us.

(** [msg] is a roster of [us]: a [user_list] notice whose content is
    the JSON text of the entries of [us] and of no other list. *)
Definition isRosterOf (us : Map.t User.t) (msg : ChatMessage.t) : Prop :=
  ChatMessage.type msg = user_list
  /\ ChatMessage.username msg = "System"
  /\ forall ms, membersJSON ms = ChatMessage.content msg <-> ms = entries us.

(** A reader for what [JS.quote] writes, from after the opening quote
    to the closing one: the text read and what follows it. It is the
    means by which the rendering of a roster is shown to lose nothing. *)
Definition hexValue (c : ascii) : option nat :=
  let n := nat_of_ascii c in
  if (48 <=? n) && (n <=? 57) then Some (n - 48)
  else if (97 <=? n) && (n <=? 102) then Some (n - 87)
  else None.

Definition unescaped (e : ascii) : option ascii :=
  let n := nat_of_ascii e in
  if n =? 34 then Some JS.dquote
  else if n =? 92 then Some JS.backslash
  else if n =? 98 then Some (ascii_of_nat 8)
  else if n =? 116 then Some (ascii_of_nat 9)
  else if n =? 110 then Some (ascii_of_nat 10)
  else if n =? 102 then Some (ascii_of_nat 12)
  else if n =? 114 then Some (ascii_of_nat 13)
  else None.

Fixpoint readString (s : string) : option (string * string) :=
  match s with
  | EmptyString => None
  | String c rest =>
      if Ascii.eqb c JS.dquote then Some (EmptyString, rest)
      else if Ascii.eqb c JS.backslash then
        match rest with
        | EmptyString => None
        | String e rest1 =>
            if Ascii.eqb e "u" then
              match rest1 with
              | String _ (String _ (String x (String y rest2))) =>
                  match hexValue x, hexValue y, readString rest2 with
                  | Some h, Some l, Some (t, r) =>
                      Some (String (ascii_of_nat (16 * h + l)) t, r)
                  | _, _, _ => None
                  end
              | _ => None
              end
            else
              match unescaped e, readString rest1 with
              | Some c', Some (t, r) => Some (String c' t, r)
              | _, _ => None
              end
        end
      else
        match readString rest with
        | Some (t, r) => Some (String c t, r)
        | None => None
        end
  end.

(** What [memberJSON] writes before the id and before the name. *)
Definition idPrefix : string :=
  ("{" ++ JS.quote "id" ++ ":" ++ String JS.dquote EmptyString)%string.

Definition namePrefix : string :=
  ("," ++ JS.quote "username" ++ ":" ++ String JS.dquote EmptyString)%string.

(** Among the sends [out], the socket [ws] gets [first] and, later,
    [second]. *)
Definition receivesInOrder (out : list Send) (ws : WebSocket)
  (first second : ChatMessage.t) : Prop :=
  exists pre mid post, out = pre ++ (ws, first) :: mid ++ (ws, second) :: post.

(** The ids the acceptor has handed out along [trace], run from [s]. *)
Fixpoint assignedIds (trace : list (Env * Event)) (s : ChatServer) : list string :=
  match trace with
  | [] => []
  | (env, ev) :: rest =>
      match ev with
      | Connection ws =>
          match completion (onConnection ws) env s with
          | Normal userId => [userId]
          | Throw _ => []
          end
      | _ => []
      end
      ++ assignedIds rest (step s (env, ev))
  end.

Definition userIdOf (n : Z) : string := ("user_" ++ JS.numberToString n)%string.

(** The number of [connection] events of a trace. *)
Fixpoint connections (trace : list (Env * Event)) : nat :=
  match trace with
  | [] => 0
  | (_, Connection _) :: rest => S (connections rest)
  | _ :: rest => connections rest
  end.

(** The counter after [k] increments from [n], for [n] up to 2^53: it
    goes up by one each time until it stands at 2^53. *)
Definition counterAt (n : Z) (k : nat) : Z :=
  Z.min (n + Z.of_nat k) 9007199254740992.

(** Connection accept as the specification words it (claim C9): a fresh
    id, then a welcome of kind [message] and a roster to the new
    socket. *)
Definition C9_as_stated : Prop :=
  forall (trace : list (Env * Event)) (env : Env) (ws : WebSocket),
    let s := runAll trace newChatServer in
    exists userId welcome roster,
      completion (onConnection ws) env s = Normal userId
      /\ ~ In userId (assignedIds trace newChatServer)
      /\ outbox (onConnection ws) env s = transmit env [(ws, welcome); (ws, roster)]
      /\ ChatMessage.type welcome = message
      /\ isRosterOf (users s) roster.

(** Immutability of the display name as the specification words it
    (claim C4): once bound, it is changed by no later event. *)
Definition C4_as_stated : Prop :=
  forall (trace : list (Env * Event)) (env : Env) (ev : Event)
         (userId : string) (user user' : User.t),
    let s := runAll trace newChatServer in
    Map.get (users s) userId = Some user ->
    Map.get (users (step s (env, ev))) userId = Some user' ->
    User.username user' = User.username user.

(** An environment where every socket is open. *)
Definition env0 : Env :=
  {| dateNow := fun k => (1700000000000 + Z.of_nat k)%Z;
     mathRandom := fun _ => "k3j9x0q1z";
     readyState := fun _ => OPEN |}.

(** Two connections; the first joins as [alice]. *)
Definition aliceJoined : list (Env * Event) :=
  [(env0, Connection 1);
   (env0, Message 1 "user_1" (Some (joinRequest "alice")));
   (env0, Connection 2)].

Definition alice : User.t :=
  {| User.id := "user_1"; User.username := "alice"; User.ws := 1 |}.

(** After that, [alice] says [hi]. *)
Definition aliceSaidHi : list (Env * Event) :=
  aliceJoined ++ [(env0, Message 1 "user_1" (Some (chatRequest " hi ")))].

(** [alice] is joined, and the second session joins as [bob]. *)
Definition bobJoined : list (Env * Event) :=
  aliceJoined ++ [(env0, Message 2 "user_2" (Some (joinRequest "bob")))].

Definition bob : User.t :=
  {| User.id := "user_2"; User.username := "bob"; User.ws := 2 |}.

(** [text] between double quotes. *)
Definition quoted (text : string) : string :=
  String JS.dquote (text ++ String JS.dquote EmptyString).

(** The requests [m1], ..., [m101] of [user_1], one after the other. *)
Definition hundredAndOne : list (Env * string * string) :=
  map (fun k => (env0, "user_1", ("m" ++ JS.numberToString (Z.of_nat k))%string))
    (seq 1 101).

(* ----------------------------------------------------------------- *)
(** *** Vocabulary of the further properties *)

(** [typeof v === "string"] *)
Definition isString (v : JS.Value) : bool :=
  match v with
  | JS.Str _ => true
  | _ => false
  end.

(** What the server does with a frame it does not accept: nothing, or
    one error notice to the sender; the server stays as it was. *)
Definition Rejected (env : Env) (s : ChatServer) (ws : WebSocket)
  (r : Completion unit * ChatServer * list Send) : Prop :=
  r = (Normal tt, s, [])
  \/ exists error, r = (Normal tt, s, transmit env [(ws, errorNoticeAt env 0 error)]).

(** A text that is not empty and has no white space at either end. *)
Definition trimmedNonEmpty (t : string) : Prop :=
  t <> EmptyString /\ JS.trim t = t.

(** What reachable servers hold besides [Invariant]. *)
Record Tidy (s : ChatServer) : Prop := {
  tidy_names :
    Forall (fun user => trimmedNonEmpty (User.username user)) (Map.values (users s));
  tidy_history :
    Forall
      (fun msg =>
         trimmedNonEmpty (ChatMessage.content msg)
         /\ trimmedNonEmpty (ChatMessage.username msg)
         /\ exists id, ChatMessage.userId msg = Some id)
      (messageHistory s)
}.

(** The callbacks of a session are closures over the id that the
    connection callback has computed, so a frame, a [close] or an
    [error] carries an id that the acceptor has assigned before:
    [known] holds the ids assigned so far. *)
Fixpoint wiredFrom (known : list string) (trace : list (Env * Event)) (s : ChatServer)
  : Prop :=
  match trace with
  | [] => True
  | (env, ev) :: rest =>
      match ev with
      | Connection _ => True
      | Message _ userId _ | Close userId | Error userId => In userId known
      end
      /\ wiredFrom (known ++ assignedIds [(env, ev)] s) rest (step s (env, ev))
  end.

Definition wired (trace : list (Env * Event)) : Prop :=
  wiredFrom [] trace newChatServer.

(** [msg] is a chat message as [handleChatMessage] builds it, of a
    session whose id is one of [ids]. *)
Definition sentBy (ids : list string) (msg : ChatMessage.t) : Prop :=
  exists env user text,
    msg = chatMessageAt env 0 user text /\ In (User.id user) ids.

(** The frame [data] from [userId] on [ws] is a join that the server
    [s] accepts, and [s'] is the server with the name bound. *)
Definition AcceptedJoin (s : ChatServer) (ws : WebSocket) (userId : string)
  (data : option JS.Value) (s' : ChatServer) : Prop :=
  exists msg name,
    data = Some msg
    /\ isRequest msg "join" "username" name
    /\ JS.trim name <> EmptyString
    /\ ~ In (JS.toLowerCase (JS.trim name)) (displayNames s)
    /\ s' = withUsers s (joined s ws userId (JS.trim name)).

(** The frame [data] from [userId] is a chat message that the server
    [s] accepts, and [s'] is the server with the message recorded. *)
Definition AcceptedChat (env : Env) (s : ChatServer) (userId : string)
  (data : option JS.Value) (s' : ChatServer) : Prop :=
  exists msg text user,
    data = Some msg
    /\ isRequest msg "message" "content" text
    /\ Map.get (users s) userId = Some user
    /\ JS.trim text <> EmptyString
    /\ s' = withHistory s
              (pushBounded (messageHistory s) (chatMessageAt env 0 user (JS.trim text))).

(** A notice of the server itself to the socket [ws]. *)
Definition isNoticeTo (ws : WebSocket) (p : Send) : Prop :=
  fst p = ws
  /\ ChatMessage.type (snd p) = message
  /\ ChatMessage.username (snd p) = "System"
  /\ ChatMessage.userId (snd p) = Some "system".

(** [GET /chat/users] of server.ts, the [connectedUsers] field:
    [chatServer?.getConnectedUsersCount() || 0], where [chatServer] is
    [null] until [createHttpServerWithWebSocket] has run. *)
Definition connectedUsers (chatServer : option ChatServer) : nat :=
  match chatServer with
  | Some s => if getConnectedUsersCount s =? 0 then 0 else getConnectedUsersCount s
  | None => 0
  end.

(** The chat page of the web client (apps/web/src/app/chat/page.tsx):
    its [useState] cells and the two functions that write requests.
    [ready] stands for [wsRef.current?.readyState === WebSocket.OPEN];
    a function returns the state after its setters and the request it
    sent, if any. *)
Module Client.
Record State : Type := mk {
  isConnected : bool;
  username : string;
  currentUsername : string;
  message : string;
  messages : list ChatMessage.t;
  users : list (string * string);
  error : option string;
  isJoining : bool
}.

Definition setError (c : State) (e : option string) : State :=
  {| isConnected := isConnected c; username := username c;
     currentUsername := currentUsername c; message := message c;
     messages := messages c; users := users c; error := e;
     isJoining := isJoining c |}.

Definition setIsJoining (c : State) (b : bool) : State :=
  {| isConnected := isConnected c; username := username c;
     currentUsername := currentUsername c; message := message c;
     messages := messages c; users := users c; error := error c;
     isJoining := b |}.

Definition setCurrentUsername (c : State) (n : string) : State :=
  {| isConnected := isConnected c; username := username c;
     currentUsername := n; message := message c;
     messages := messages c; users := users c; error := error c;
     isJoining := isJoining c |}.

Definition setUsername (c : State) (n : string) : State :=
  {| isConnected := isConnected c; username := n;
     currentUsername := currentUsername c; message := message c;
     messages := messages c; users := users c; error := error c;
     isJoining := isJoining c |}.

Definition setMessage (c : State) (m : string) : State :=
  {| isConnected := isConnected c; username := username c;
     currentUsername := currentUsername c; message := m;
     messages := messages c; users := users c; error := error c;
     isJoining := isJoining c |}.

(** A string is falsy when it is empty. *)
Definition falsy (t : string) : bool := (t =? EmptyString)%string.

(** [joinChat] *)
Definition joinChat (ready : bool) (c : State) : State * option JS.Value :=
  if falsy (JS.trim (username c)) then
    (setError c (Some "Please enter a username"), None)
  else if negb (isConnected c) then
    (setError c (Some "Not connected to chat server"), None)
  else
    let c1 := setError (setIsJoining c true) None in
    if ready then
      (setUsername (setCurrentUsername c1 (JS.trim (username c))) EmptyString,
       Some (joinRequest (JS.trim (username c))))
    else (c1, None).

(** [sendMessage] *)
Definition sendMessage (ready : bool) (c : State) : State * option JS.Value :=
  if falsy (JS.trim (message c)) || negb (isConnected c) || falsy (currentUsername c)
  then (c, None)
  else if ready then
    (setMessage c EmptyString, Some (chatRequest (JS.trim (message c))))
  else (c, None).

(** [handleKeyPress]: [e.key] and [e.shiftKey] of the keyboard event. *)
Definition handleKeyPress (key : string) (shiftKey : bool) (ready : bool) (c : State)
  : State * option JS.Value :=
  if (key =? "Enter")%string && negb shiftKey then
    if negb (falsy (currentUsername c)) then sendMessage ready c
    else joinChat ready c
  else (c, None).
End Client.

(** A connected client that has typed the name [ Alice ], and one that
    has joined as [alice] and typed [ hi ]. *)
Definition newcomer : Client.State :=
  {| Client.isConnected := true;
     Client.username := " Alice ";
     Client.currentUsername := EmptyString;
     Client.message := EmptyString;
     Client.messages := [];
     Client.users := [];
     Client.error := None;
     Client.isJoining := false |}.

Definition chatting : Client.State :=
  {| Client.isConnected := true;
     Client.username := EmptyString;
     Client.currentUsername := "alice";
     Client.message := " hi ";
     Client.messages := [];
     Client.users := [];
     Client.error := None;
     Client.isJoining := true |}.

(* ================================================================= *)
(** ** What a callback run sends: closed forms *)

Lemma emit_nil_0 w : emit w [] 0 = w.
Proof.
  destruct w; unfold emit; simpl. now rewrite app_nil_r, Nat.add_0_r.
Qed.

Lemma emit_emit w a i b j : emit (emit w a i) b j = emit w (a ++ b) (i + j).
Proof.
  unfold emit; simpl. now rewrite app_assoc, Nat.add_assoc.
Qed.

Lemma server_emit w a i : server (emit w a i) = server w.
Proof. reflexivity. Qed.

Lemma ticks_emit w a i : ticks (emit w a i) = ticks w + i.
Proof. reflexivity. Qed.

Lemma transmit_app env a b : transmit env (a ++ b) = transmit env a ++ transmit env b.
Proof. apply filter_app. Qed.

Lemma transmit_In env p out : In p (transmit env out) -> In p out.
Proof. unfold transmit. intros H. now apply filter_In in H. Qed.

Lemma transmit_open env out :
  Forall (fun p => readyState env (fst p) = OPEN) out -> transmit env out = out.
Proof.
  induction 1 as [|p out Hp _ IH]; simpl; [reflexivity|].
  rewrite Hp; simpl. now rewrite IH.
Qed.

Lemma transmit_all_open env out :
  (forall ws, readyState env ws = OPEN) -> transmit env out = out.
Proof.
  intros Hopen. apply transmit_open. apply Forall_forall. intros p _. apply Hopen.
Qed.

Section Runs.
Variable env : Env.

Lemma generateMessageId_run w :
  generateMessageId env w = (Normal (messageIdAt env (ticks w)), emit w [] 2).
Proof.
  destruct w as [s o k]. unfold generateMessageId, emit, messageIdAt; simpl.
  unfold bind, DateNow, MathRandom36, bind, tick, ret; simpl.
  now rewrite app_nil_r, Nat.add_comm.
Qed.

Lemma systemMessage_run ty text w :
  systemMessage ty text env w
  = (Normal (systemMessageAt env (ticks w) ty text), emit w [] 3).
Proof.
  unfold systemMessage, bind. rewrite generateMessageId_run.
  destruct w as [s o k]. unfold DateNow, bind, tick, ret, emit, systemMessageAt; simpl.
  rewrite !app_nil_r. repeat f_equal; lia.
Qed.

Lemma sendMessage_run ws msg w :
  sendMessage ws msg env w = (Normal tt, emit w (transmit env [(ws, msg)]) 0).
Proof.
  destruct w as [s o k].
  unfold sendMessage, bind, isReady, wsSend, ret, emit, transmit; simpl.
  destruct (isOpen (readyState env ws)); simpl;
    now rewrite ?app_nil_r, Nat.add_0_r.
Qed.

Lemma sendError_run ws error w :
  sendError ws error env w
  = (Normal tt, emit w (transmit env [(ws, errorNoticeAt env (ticks w) error)]) 3).
Proof.
  unfold sendError, bind. rewrite systemMessage_run, sendMessage_run.
  now rewrite emit_emit.
Qed.

Lemma sendUserList_run ws w :
  sendUserList ws env w
  = (Normal tt,
     emit w (transmit env [(ws, userListAt env (ticks w) (users (server w)))]) 3).
Proof.
  unfold sendUserList, bind. rewrite generateMessageId_run.
  destruct w as [s o k].
  unfold getServer, DateNow, bind, tick, ret; simpl.
  rewrite sendMessage_run. unfold emit, userListAt, systemMessageAt; simpl.
  rewrite app_nil_r, Nat.add_0_r.
  replace (k + 2) with (S (S k)) by lia.
  replace (k + 3) with (S (S (S k))) by lia.
  reflexivity.
Qed.

Lemma forEach_sendMessage {A} (f : A -> WebSocket) (g : A -> ChatMessage.t) xs w :
  forEach xs (fun x => sendMessage (f x) (g x)) env w
  = (Normal tt, emit w (transmit env (map (fun x => (f x, g x)) xs)) 0).
Proof.
  revert w. induction xs as [|x xs IH]; intros w; simpl.
  - unfold ret. now rewrite emit_nil_0.
  - unfold bind. rewrite sendMessage_run, IH, emit_emit.
    now rewrite <- transmit_app.
Qed.

Lemma broadcastMessage_run msg w :
  broadcastMessage msg env w
  = (Normal tt, emit w (transmit env (toAll (users (server w)) msg)) 0).
Proof.
  unfold broadcastMessage, bind, getServer. apply forEach_sendMessage.
Qed.

Lemma sendMessageHistory_run ws w :
  sendMessageHistory ws env w
  = (Normal tt, emit w (transmit env (historyTo ws (messageHistory (server w)))) 0).
Proof.
  unfold sendMessageHistory, bind, getServer.
  apply (forEach_sendMessage (fun _ => ws) (fun msg => msg)).
Qed.

Lemma forEach_sendUserList targets w :
  forEach targets (fun user => sendUserList (User.ws user)) env w
  = (Normal tt,
     emit w (transmit env (rosterSends env (ticks w) (users (server w)) targets))
       (3 * length targets)).
Proof.
  revert w. induction targets as [|u targets IH]; intros w; simpl.
  - unfold ret. now rewrite emit_nil_0.
  - unfold bind. rewrite sendUserList_run, IH, emit_emit.
    rewrite server_emit, ticks_emit, <- transmit_app. simpl.
    repeat f_equal; lia.
Qed.

Lemma broadcastUserList_run w :
  broadcastUserList env w
  = (Normal tt,
     emit w (transmit env (rosterToAll env (ticks w) (users (server w))))
       (3 * Map.size (users (server w)))).
Proof.
  unfold broadcastUserList, bind, getServer. rewrite forEach_sendUserList.
  unfold rosterToAll, Map.size, Map.values. now rewrite length_map.
Qed.

End Runs.

(** Unfolds the plumbing of the monad and leaves the methods folded. *)
Ltac js_step :=
  cbv beta iota delta [bind ret lift throw JS.callTrim getServer putServer].

(** The worlds the handlers leave, branch by branch. *)
Section Handlers.
Variable env : Env.

Lemma isBlank_Str name w :
  isBlank (JS.Str name) env w = (Normal (String.length (JS.trim name) =? 0), w).
Proof.
  unfold isBlank; simpl. destruct name as [|c name]; simpl; [reflexivity|].
  reflexivity.
Qed.

Lemma length_nonzero (t : string) : t <> EmptyString -> (String.length t =? 0) = false.
Proof.
  destruct t; simpl; intros H; [now destruct H | reflexivity].
Qed.

Lemma handleUserJoin_blank ws userId name w :
  JS.trim name = EmptyString ->
  handleUserJoin ws userId (JS.Str name) env w
  = (Normal tt,
     emit w (transmit env [(ws, errorNoticeAt env (ticks w) "Username is required")]) 3).
Proof.
  intros Hblank. unfold handleUserJoin. js_step. rewrite isBlank_Str, Hblank.
  js_step. apply sendError_run.
Qed.

Lemma handleUserJoin_taken ws userId name existingUser w :
  JS.trim name <> EmptyString ->
  find (sameName (JS.trim name)) (Map.values (users (server w))) = Some existingUser ->
  handleUserJoin ws userId (JS.Str name) env w
  = (Normal tt,
     emit w (transmit env [(ws, errorNoticeAt env (ticks w) "Username already taken")]) 3).
Proof.
  intros Hname Hfind. unfold handleUserJoin. js_step.
  rewrite isBlank_Str, (length_nonzero _ Hname). js_step.
  rewrite Hfind. apply sendError_run.
Qed.

Lemma handleUserJoin_accepted ws userId name w :
  JS.trim name <> EmptyString ->
  find (sameName (JS.trim name)) (Map.values (users (server w))) = None ->
  let us := joined (server w) ws userId (JS.trim name) in
  let joinMessage :=
    systemMessageAt env (ticks w) user_joined (JS.trim name ++ " joined the chat")%string in
  handleUserJoin ws userId (JS.Str name) env w
  = (Normal tt,
     setServer
       (emit w
          (transmit env
             (toAll us joinMessage
              ++ rosterToAll env (ticks w + 3) us
              ++ historyTo ws (messageHistory (server w))))
          (3 + 3 * Map.size us))
       (withUsers (server w) us)).
Proof.
  intros Hname Hfind us joinMessage. unfold handleUserJoin. js_step.
  rewrite isBlank_Str, (length_nonzero _ Hname). js_step.
  rewrite Hfind. rewrite systemMessage_run. js_step.
  rewrite broadcastMessage_run. js_step.
  rewrite broadcastUserList_run. js_step.
  rewrite sendMessageHistory_run.
  rewrite !emit_emit, <- !transmit_app, <- app_assoc.
  cbn [server ticks emit withUsers users messageHistory].
  rewrite !Nat.add_0_r. reflexivity.
Qed.

Lemma handleChatMessage_not_joined userId content w :
  Map.get (users (server w)) userId = None ->
  handleChatMessage userId content env w = (Normal tt, w).
Proof.
  intros Hget. unfold handleChatMessage, bind, getServer. now rewrite Hget.
Qed.

Lemma handleChatMessage_blank userId text w :
  JS.trim text = EmptyString ->
  handleChatMessage userId (JS.Str text) env w = (Normal tt, w).
Proof.
  intros Hblank. unfold handleChatMessage, bind, getServer.
  destruct (Map.get (users (server w)) userId); [|reflexivity].
  now rewrite isBlank_Str, Hblank.
Qed.

Lemma handleChatMessage_falsy userId content w :
  JS.truthy content = false ->
  handleChatMessage userId content env w = (Normal tt, w).
Proof.
  intros Hfalsy. unfold handleChatMessage, bind, getServer.
  destruct (Map.get (users (server w)) userId); [|reflexivity].
  unfold isBlank. now rewrite Hfalsy.
Qed.

Lemma handleChatMessage_accepted userId text user w :
  Map.get (users (server w)) userId = Some user ->
  JS.trim text <> EmptyString ->
  let msg := chatMessageAt env (ticks w) user (JS.trim text) in
  handleChatMessage userId (JS.Str text) env w
  = (Normal tt,
     setServer
       (emit w (transmit env (toAll (users (server w)) msg)) 3)
       (withHistory (server w) (pushBounded (messageHistory (server w)) msg))).
Proof.
  intros Hget Htext msg. unfold handleChatMessage, bind.
  unfold getServer at 1. rewrite Hget.
  rewrite isBlank_Str, (length_nonzero _ Htext).
  rewrite generateMessageId_run; simpl.
  destruct w as [s o k]; simpl in *.
  unfold DateNow, bind, tick, ret, pushHistory, bind, getServer, putServer; simpl.
  replace (k + 2) with (S (S k)) by lia.
  fold (chatMessageAt env k user (JS.trim text)). fold msg.
  unfold pushBounded.
  destruct (100 <? length (messageHistory s ++ [msg])) eqn:Hlen.
  - unfold shiftHistory, bind, getServer, putServer; simpl.
    rewrite broadcastMessage_run. unfold emit, setServer, withHistory; simpl.
    rewrite app_nil_r, Nat.add_0_r.
    replace (k + 3) with (S (S (S k))) by lia. reflexivity.
  - unfold ret. rewrite broadcastMessage_run. unfold emit, setServer, withHistory; simpl.
    rewrite app_nil_r, Nat.add_0_r.
    replace (k + 3) with (S (S (S k))) by lia. reflexivity.
Qed.

Lemma handleUserDisconnect_unknown userId w :
  Map.get (users (server w)) userId = None ->
  handleUserDisconnect userId env w = (Normal tt, w).
Proof.
  intros Hget. unfold handleUserDisconnect, bind, getServer. now rewrite Hget.
Qed.

Lemma handleUserDisconnect_joined userId user w :
  Map.get (users (server w)) userId = Some user ->
  let us := Map.delete (users (server w)) userId in
  let leaveMessage :=
    systemMessageAt env (ticks w) user_left (User.username user ++ " left the chat")%string in
  handleUserDisconnect userId env w
  = (Normal tt,
     setServer
       (emit w
          (transmit env (toAll us leaveMessage ++ rosterToAll env (ticks w + 3) us))
          (3 + 3 * Map.size us))
       (withUsers (server w) us)).
Proof.
  intros Hget us leaveMessage. unfold handleUserDisconnect, bind, getServer.
  rewrite Hget. unfold putServer.
  rewrite systemMessage_run, broadcastMessage_run, broadcastUserList_run.
  rewrite !emit_emit; simpl. rewrite !transmit_app.
  unfold setServer, emit; simpl. fold us. fold leaveMessage.
  rewrite Nat.add_0_r. reflexivity.
Qed.

End Handlers.

(* ================================================================= *)
(** ** What one event does to the server *)

Section Steps.
Variable env : Env.

Lemma string_dec_empty (t : string) : {t = EmptyString} + {t <> EmptyString}.
Proof. destruct t; [now left | now right]. Qed.

Lemma handleUserJoin_server ws userId v w :
  server (snd (handleUserJoin ws userId v env w)) = server w
  \/ exists name,
       v = JS.Str name /\ JS.trim name <> EmptyString
       /\ find (sameName (JS.trim name)) (Map.values (users (server w))) = None
       /\ server (snd (handleUserJoin ws userId v env w))
          = withUsers (server w) (joined (server w) ws userId (JS.trim name)).
Proof.
  destruct v as [| |b|n|name|items|props];
    try (left; unfold handleUserJoin, isBlank; js_step; cbn [JS.truthy negb];
         js_step; try rewrite sendError_run; reflexivity).
  - left. unfold handleUserJoin, isBlank; js_step; cbn [JS.truthy].
    destruct b; cbn [negb]; js_step; try rewrite sendError_run; reflexivity.
  - left. unfold handleUserJoin, isBlank; js_step; cbn [JS.truthy].
    destruct (n =? 0)%Z; cbn [negb]; js_step; try rewrite sendError_run; reflexivity.
  - destruct (string_dec_empty (JS.trim name)) as [Hblank|Hname].
    + left. now rewrite handleUserJoin_blank.
    + destruct (find (sameName (JS.trim name)) (Map.values (users (server w))))
        as [existingUser|] eqn:Hfind.
      * left. now rewrite (handleUserJoin_taken env ws userId name existingUser).
      * right. exists name. repeat split; try assumption.
        now rewrite handleUserJoin_accepted.
Qed.

Lemma handleChatMessage_server userId v w :
  server (snd (handleChatMessage userId v env w)) = server w
  \/ exists text user,
       v = JS.Str text /\ JS.trim text <> EmptyString
       /\ Map.get (users (server w)) userId = Some user
       /\ server (snd (handleChatMessage userId v env w))
          = withHistory (server w)
              (pushBounded (messageHistory (server w))
                 (chatMessageAt env (ticks w) user (JS.trim text))).
Proof.
  destruct (Map.get (users (server w)) userId) as [user|] eqn:Hget.
  2:{ left. now rewrite handleChatMessage_not_joined. }
  destruct (JS.truthy v) eqn:Htruthy.
  2:{ left. now rewrite handleChatMessage_falsy. }
  destruct v as [| |b|n|text|items|props]; try discriminate;
    try (left; unfold handleChatMessage; js_step; rewrite Hget;
         unfold isBlank; rewrite Htruthy; cbn [negb]; js_step; reflexivity).
  destruct (string_dec_empty (JS.trim text)) as [Hblank|Htext].
  - left. now rewrite handleChatMessage_blank.
  - right. exists text, user. repeat split; try assumption.
    now rewrite (handleChatMessage_accepted env userId text user).
Qed.

(** [handleMessage] reaches a handler only through these two cases. *)
Lemma handleMessage_server ws userId msg w :
  server (snd (handleMessage ws userId msg env w)) = server w
  \/ (exists name,
        isRequest msg "join" "username" name /\ JS.trim name <> EmptyString
        /\ find (sameName (JS.trim name)) (Map.values (users (server w))) = None
        /\ server (snd (handleMessage ws userId msg env w))
           = withUsers (server w) (joined (server w) ws userId (JS.trim name)))
  \/ (exists text user,
        isRequest msg "message" "content" text /\ JS.trim text <> EmptyString
        /\ Map.get (users (server w)) userId = Some user
        /\ server (snd (handleMessage ws userId msg env w))
           = withHistory (server w)
               (pushBounded (messageHistory (server w))
                  (chatMessageAt env (ticks w) user (JS.trim text)))).
Proof.
  unfold handleMessage, isRequest. js_step.
  destruct (JS.getProp msg "type") as [ty|e] eqn:Htype; [|now left].
  destruct ty as [| |b|n|k|items|props];
    try (left; now rewrite sendError_run).
  destruct (k =? "join")%string eqn:Hjoin.
  - apply String.eqb_eq in Hjoin. subst k.
    destruct (JS.getProp msg "username") as [v|e] eqn:Huser; [|now left].
    destruct (handleUserJoin_server ws userId v w) as [H|(name & -> & H1 & H2 & H3)].
    + now left.
    + right; left. exists name. now repeat split.
  - destruct (k =? "message")%string eqn:Hmsg.
    + apply String.eqb_eq in Hmsg. subst k.
      destruct (JS.getProp msg "content") as [v|e] eqn:Hcontent; [|now left].
      destruct (handleChatMessage_server userId v w)
        as [H|(text & user & -> & H1 & H2 & H3)].
      * now left.
      * right; right. exists text, user. now repeat split.
    + left. now rewrite sendError_run.
Qed.

Lemma onMessage_server ws userId data w :
  server (snd (onMessage ws userId data env w))
  = match data with
    | Some msg => server (snd (handleMessage ws userId msg env w))
    | None => server w
    end.
Proof.
  unfold onMessage, tryCatch, jsonParse. destruct data as [msg|]; js_step.
  - destruct (handleMessage ws userId msg env w) as [[[]|e] w']; [reflexivity|].
    now rewrite sendError_run.
  - now rewrite sendError_run.
Qed.

Lemma onConnection_run ws w :
  onConnection ws env w
  = (Normal ("user_" ++ JS.numberToString (nextUserId (server w)))%string,
     setServer
       (emit w
          (transmit env
             [(ws, systemMessageAt env (ticks w) user_joined "Welcome to the chat!");
              (ws, userListAt env (ticks w + 3) (users (server w)))])
          6)
       (withNextUserId (server w) (postIncrement (nextUserId (server w))))).
Proof.
  unfold onConnection. js_step.
  rewrite systemMessage_run. js_step.
  rewrite sendMessage_run. js_step.
  rewrite sendUserList_run. rewrite !emit_emit, <- transmit_app.
  reflexivity.
Qed.

Lemma after_world {A} (m : M A) s :
  after m env s = server (snd (m env {| server := s; sent := []; ticks := 0 |})).
Proof.
  unfold after, run. now destruct (m env _) as [r w].
Qed.

Theorem step_transition ev s : Transition env s ev (step s (env, ev)).
Proof.
  unfold step; simpl fst; simpl snd. rewrite after_world.
  destruct ev as [ws|ws userId data|userId|userId].
  - unfold dispatch. js_step. rewrite onConnection_run. apply T_connection.
  - unfold dispatch. rewrite onMessage_server.
    destruct data as [msg|]; [|apply T_unchanged].
    destruct (handleMessage_server ws userId msg {| server := s; sent := []; ticks := 0 |})
      as [H|[(name & H1 & H2 & H3 & H4)|(text & user & H1 & H2 & H3 & H4)]];
      rewrite ?H, ?H4; simpl.
    + apply T_unchanged.
    + now apply T_join.
    + now apply T_chat.
  - unfold dispatch, onClose.
    destruct (Map.get (users s) userId) as [user|] eqn:Hget.
    + rewrite (handleUserDisconnect_joined env userId user) by assumption.
      simpl. apply (T_disconnect env s _ userId user); [now left | assumption].
    + rewrite handleUserDisconnect_unknown by assumption. apply T_unchanged.
  - unfold dispatch, onError.
    destruct (Map.get (users s) userId) as [user|] eqn:Hget.
    + rewrite (handleUserDisconnect_joined env userId user) by assumption.
      simpl. apply (T_disconnect env s _ userId user); [now right | assumption].
    + rewrite handleUserDisconnect_unknown by assumption. apply T_unchanged.
Qed.

End Steps.

(* ================================================================= *)
(** ** Invariants of the reachable servers *)

Section MapFacts.
Context {V : Type}.

Lemma set_values_In (m : Map.t V) k v x :
  In x (Map.values (Map.set m k v)) -> In x (Map.values m) \/ x = v.
Proof.
  induction m as [|[k' v'] m IH]; simpl.
  - intros [<-|[]]. now right.
  - destruct (k' =? k)%string; simpl.
    + intros [<-|H]; [now right | left; now right].
    + intros [<-|H]; [left; now left |].
      destruct (IH H) as [H'| ->]; [left; now right | now right].
Qed.

Lemma set_values_NoDup {B} (g : V -> B) (m : Map.t V) k v :
  NoDup (map g (Map.values m)) ->
  ~ In (g v) (map g (Map.values m)) ->
  NoDup (map g (Map.values (Map.set m k v))).
Proof.
  induction m as [|[k' v'] m IH]; simpl; intros Hnd Hnew.
  - constructor; [intros [] | constructor].
  - inversion Hnd as [|? ? Hv' Hm]; subst.
    destruct (k' =? k)%string; simpl.
    + constructor; [tauto | assumption].
    + constructor.
      * intros Hin. apply in_map_iff in Hin. destruct Hin as (x & Hgx & Hx).
        apply set_values_In in Hx. destruct Hx as [Hx| ->].
        -- apply Hv'. rewrite <- Hgx. now apply in_map.
        -- apply Hnew. now left.
      * apply IH; tauto.
Qed.

Lemma delete_values_In (m : Map.t V) k x :
  In x (Map.values (Map.delete m k)) -> In x (Map.values m).
Proof.
  unfold Map.values, Map.delete. intros H. apply in_map_iff in H.
  destruct H as (e & <- & He). apply filter_In in He. apply in_map. tauto.
Qed.

Lemma delete_values_NoDup {B} (g : V -> B) (m : Map.t V) k :
  NoDup (map g (Map.values m)) -> NoDup (map g (Map.values (Map.delete m k))).
Proof.
  induction m as [|[k' v'] m IH]; simpl; intros Hnd; [constructor|].
  inversion Hnd as [|? ? Hv' Hm]; subst.
  destruct (k' =? k)%string; simpl; [now apply IH|].
  constructor; [|now apply IH].
  intros Hin. apply Hv'. apply in_map_iff in Hin. destruct Hin as (x & <- & Hx).
  apply in_map. now apply delete_values_In in Hx.
Qed.

Lemma get_delete_same (m : Map.t V) k : Map.get (Map.delete m k) k = None.
Proof.
  induction m as [|[k' v'] m IH]; simpl; [reflexivity|].
  destruct (k' =? k)%string eqn:Hk; simpl; [assumption|]. now rewrite Hk.
Qed.

Lemma get_delete_other (m : Map.t V) k k' :
  k' <> k -> Map.get (Map.delete m k) k' = Map.get m k'.
Proof.
  intros Hne. induction m as [|[k0 v0] m IH]; simpl; [reflexivity|].
  destruct (k0 =? k)%string eqn:Hk; simpl.
  - apply String.eqb_eq in Hk. subst k0.
    apply String.eqb_neq in Hne. rewrite String.eqb_sym in Hne. now rewrite Hne.
  - now rewrite IH.
Qed.

Lemma get_set_same (m : Map.t V) k v : Map.get (Map.set m k v) k = Some v.
Proof.
  induction m as [|[k' v'] m IH]; simpl.
  - now rewrite String.eqb_refl.
  - destruct (k' =? k)%string eqn:Hk; simpl; now rewrite Hk.
Qed.

Lemma get_set_other (m : Map.t V) k k' v :
  k' <> k -> Map.get (Map.set m k v) k' = Map.get m k'.
Proof.
  intros Hne. induction m as [|[k0 v0] m IH]; simpl.
  - apply String.eqb_neq in Hne. rewrite String.eqb_sym in Hne. now rewrite Hne.
  - destruct (k0 =? k)%string eqn:Hk; simpl.
    + apply String.eqb_eq in Hk. subst k0.
      apply String.eqb_neq in Hne. rewrite String.eqb_sym in Hne. now rewrite Hne.
    + now rewrite IH.
Qed.

Lemma get_In_values (m : Map.t V) k v : Map.get m k = Some v -> In v (Map.values m).
Proof.
  induction m as [|[k' v'] m IH]; simpl; [discriminate|].
  destruct (k' =? k)%string; [intros [= ->]; now left | right; now apply IH].
Qed.
End MapFacts.

Lemma find_sameName_None name (us : list User.t) :
  find (sameName name) us = None ->
  ~ In (JS.toLowerCase name) (map (fun user => JS.toLowerCase (User.username user)) us).
Proof.
  intros Hfind Hin. apply in_map_iff in Hin. destruct Hin as (user & Heq & Huser).
  pose proof (find_none _ _ Hfind _ Huser) as Hfalse.
  unfold sameName in Hfalse. apply String.eqb_neq in Hfalse. now apply Hfalse.
Qed.

Lemma pushBounded_length h msg :
  length h <= 100 -> length (pushBounded h msg) <= 100.
Proof.
  intros Hh. unfold pushBounded.
  destruct (100 <? length (h ++ [msg])) eqn:Hlt.
  - destruct (h ++ [msg]) as [|x l] eqn:Hl; simpl; [lia|].
    assert (length (h ++ [msg]) = S (length l)) as Hlen by now rewrite Hl.
    rewrite length_app in Hlen. simpl in Hlen. lia.
  - apply Nat.ltb_ge in Hlt. exact Hlt.
Qed.

Lemma pushBounded_In h msg x : In x (pushBounded h msg) -> In x h \/ x = msg.
Proof.
  unfold pushBounded. intros H.
  assert (In x (h ++ [msg])) as Hin.
  { destruct (100 <? length (h ++ [msg])); [|assumption].
    destruct (h ++ [msg]); [assumption | now right]. }
  apply in_app_or in Hin. destruct Hin as [Hin|[<-|[]]]; [now left | now right].
Qed.

Lemma set_In {V} (m : Map.t V) k v e : In e (Map.set m k v) -> In e m \/ e = (k, v).
Proof.
  induction m as [|[k' v'] m IH]; simpl.
  - intros [<-|[]]. now right.
  - destruct (k' =? k)%string eqn:Hk; simpl.
    + apply String.eqb_eq in Hk. subst k'.
      intros [<-|H]; [now right | left; now right].
    + intros [<-|H]; [left; now left |].
      destruct (IH H) as [H'| ->]; [left; now right | now right].
Qed.

Lemma set_keys_NoDup {V} (m : Map.t V) k v :
  NoDup (Map.keys m) -> NoDup (Map.keys (Map.set m k v)).
Proof.
  unfold Map.keys. induction m as [|[k' v'] m IH]; simpl; intros Hnd.
  - constructor; [intros [] | constructor].
  - inversion Hnd as [|? ? Hk' Hm]; subst.
    destruct (k' =? k)%string eqn:Hk; simpl.
    + now constructor.
    + constructor; [|now apply IH].
      intros Hin. apply in_map_iff in Hin. destruct Hin as (e & He & Hin).
      apply set_In in Hin. destruct Hin as [Hin| ->].
      * apply Hk'. rewrite <- He. now apply in_map.
      * simpl in He. subst k'. now rewrite String.eqb_refl in Hk.
Qed.

Lemma delete_keys_NoDup {V} (m : Map.t V) k :
  NoDup (Map.keys m) -> NoDup (Map.keys (Map.delete m k)).
Proof.
  unfold Map.keys, Map.delete. induction m as [|[k' v'] m IH]; simpl; intros Hnd;
    [constructor|].
  inversion Hnd as [|? ? Hk' Hm]; subst.
  destruct (k' =? k)%string; simpl; [now apply IH|].
  constructor; [|now apply IH].
  intros Hin. apply Hk'. apply in_map_iff in Hin. destruct Hin as (e & <- & He).
  apply in_map. apply filter_In in He. tauto.
Qed.

Lemma Invariant_new : Invariant newChatServer.
Proof.
  split; simpl; try constructor. lia.
Qed.

Lemma Invariant_transition env s ev s' :
  Transition env s ev s' -> Invariant s -> Invariant s'.
Proof.
  intros Ht [Hkeys Hu Hn Hk Hb Hm].
  destruct Ht as [ev|ws|ws userId msg name _ Hname Hfind
                 |ws userId msg text user _ _ _|ev userId user _ _].
  - now split.
  - now split.
  - split; try assumption.
    + unfold withUsers, joined; simpl. now apply set_keys_NoDup.
    + unfold displayNames, withUsers, joined; simpl.
      apply (set_values_NoDup (fun user => JS.toLowerCase (User.username user)));
        [assumption|].
      now apply find_sameName_None.
    + unfold withUsers, joined; simpl. apply Forall_forall. intros x Hx.
      apply set_values_In in Hx. destruct Hx as [Hx| ->]; [|assumption].
      revert x Hx. now apply Forall_forall.
    + unfold withUsers, joined; simpl. apply Forall_forall. intros e He.
      apply set_In in He. destruct He as [He| ->]; [|reflexivity].
      revert e He. now apply Forall_forall.
  - split; try assumption.
    + simpl. now apply pushBounded_length.
    + simpl. apply Forall_forall. intros x Hx.
      apply pushBounded_In in Hx. destruct Hx as [Hx| ->]; [|reflexivity].
      revert x Hx. now apply Forall_forall.
  - split; try assumption.
    + unfold withUsers; simpl. now apply delete_keys_NoDup.
    + unfold displayNames, withUsers; simpl.
      now apply (delete_values_NoDup (fun user => JS.toLowerCase (User.username user))).
    + unfold withUsers; simpl. apply Forall_forall. intros x Hx.
      apply delete_values_In in Hx. revert x Hx. now apply Forall_forall.
    + unfold withUsers, Map.delete; simpl. apply Forall_forall. intros e He.
      apply filter_In in He. destruct He as [He _].
      revert e He. now apply Forall_forall.
Qed.

Lemma Invariant_runAll trace : forall s, Invariant s -> Invariant (runAll trace s).
Proof.
  induction trace as [|[env ev] trace IH]; intros s Hs; simpl; [assumption|].
  apply IH. apply (Invariant_transition env s ev); [apply step_transition | assumption].
Qed.

(* ================================================================= *)
(** ** Runs from a server: the handlers *)

Lemma run_start {A} (m : M A) env s r w :
  m env (start s) = (r, w) -> run m env s = (r, server w, sent w).
Proof. unfold run, start. now intros ->. Qed.

Lemma find_sameName_Some name (s : ChatServer) :
  In (JS.toLowerCase name) (displayNames s) ->
  exists existingUser, find (sameName name) (Map.values (users s)) = Some existingUser.
Proof.
  unfold displayNames. intros Hin. apply in_map_iff in Hin.
  destruct Hin as (user & Heq & Huser).
  destruct (find (sameName name) (Map.values (users s))) as [u|] eqn:Hfind.
  - now exists u.
  - pose proof (find_none _ _ Hfind _ Huser) as Hfalse.
    unfold sameName in Hfalse. apply String.eqb_neq in Hfalse. now destruct Hfalse.
Qed.

Lemma toLowerCase_empty (t : string) : JS.toLowerCase t = EmptyString -> t = EmptyString.
Proof. destruct t; [reflexivity | discriminate]. Qed.

Lemma run_handleUserJoin_blank env s ws userId name :
  JS.trim name = EmptyString ->
  run (handleUserJoin ws userId (JS.Str name)) env s
  = (Normal tt, s, transmit env [(ws, errorNoticeAt env 0 "Username is required")]).
Proof.
  intros H. apply (handleUserJoin_blank env ws userId name (start s)) in H.
  now rewrite (run_start _ _ _ _ _ H).
Qed.

Lemma run_handleUserJoin_taken env s ws userId name :
  JS.trim name <> EmptyString ->
  In (JS.toLowerCase (JS.trim name)) (displayNames s) ->
  run (handleUserJoin ws userId (JS.Str name)) env s
  = (Normal tt, s, transmit env [(ws, errorNoticeAt env 0 "Username already taken")]).
Proof.
  intros Hname Htaken. apply find_sameName_Some in Htaken.
  destruct Htaken as (existingUser & Hfind).
  pose proof (handleUserJoin_taken env ws userId name existingUser (start s) Hname Hfind)
    as H.
  now rewrite (run_start _ _ _ _ _ H).
Qed.

Lemma run_handleUserJoin_accepted env s ws userId name :
  JS.trim name <> EmptyString ->
  ~ In (JS.toLowerCase (JS.trim name)) (displayNames s) ->
  let us := joined s ws userId (JS.trim name) in
  run (handleUserJoin ws userId (JS.Str name)) env s
  = (Normal tt, withUsers s us,
     transmit env
       (toAll us
          (systemMessageAt env 0 user_joined (JS.trim name ++ " joined the chat")%string)
        ++ rosterToAll env 3 us
        ++ historyTo ws (messageHistory s))).
Proof.
  intros Hname Hfree us.
  assert (find (sameName (JS.trim name)) (Map.values (users s)) = None) as Hfind.
  { destruct (find (sameName (JS.trim name)) (Map.values (users s))) as [u|] eqn:Hfind;
      [|reflexivity].
    destruct Hfree. apply find_some in Hfind. destruct Hfind as [Hu Hsame].
    unfold sameName in Hsame. apply String.eqb_eq in Hsame.
    unfold displayNames. rewrite <- Hsame.
    now apply (in_map (fun user => JS.toLowerCase (User.username user))). }
  pose proof (handleUserJoin_accepted env ws userId name (start s) Hname Hfind) as H.
  now rewrite (run_start _ _ _ _ _ H).
Qed.

Lemma run_handleChatMessage env s userId text :
  run (handleChatMessage userId (JS.Str text)) env s
  = match Spec.recordMessage env s userId text with
    | Some msg =>
        (Normal tt, withHistory s (pushBounded (messageHistory s) msg),
         transmit env (toAll (users s) msg))
    | None => (Normal tt, s, [])
    end.
Proof.
  unfold Spec.recordMessage.
  destruct (Map.get (users s) userId) as [user|] eqn:Hget.
  - destruct (JS.trim text =? EmptyString)%string eqn:Hblank.
    + apply String.eqb_eq in Hblank.
      now rewrite (run_start _ _ _ _ _ (handleChatMessage_blank env userId text (start s) Hblank)).
    + apply String.eqb_neq in Hblank.
      now rewrite (run_start _ _ _ _ _
                     (handleChatMessage_accepted env userId text user (start s) Hget Hblank)).
  - now rewrite (run_start _ _ _ _ _
                   (handleChatMessage_not_joined env userId (JS.Str text) (start s) Hget)).
Qed.

Lemma run_handleUserDisconnect env s userId :
  run (handleUserDisconnect userId) env s
  = match Map.get (users s) userId with
    | Some user =>
        let us := Map.delete (users s) userId in
        (Normal tt, withUsers s us,
         transmit env
           (toAll us
              (systemMessageAt env 0 user_left (User.username user ++ " left the chat")%string)
            ++ rosterToAll env 3 us))
    | None => (Normal tt, s, [])
    end.
Proof.
  destruct (Map.get (users s) userId) as [user|] eqn:Hget.
  - now rewrite (run_start _ _ _ _ _
                   (handleUserDisconnect_joined env userId user (start s) Hget)).
  - now rewrite (run_start _ _ _ _ _
                   (handleUserDisconnect_unknown env userId (start s) Hget)).
Qed.

Lemma run_onConnection env s ws :
  run (onConnection ws) env s
  = (Normal ("user_" ++ JS.numberToString (nextUserId s))%string,
     withNextUserId s (postIncrement (nextUserId s)),
     transmit env
       [(ws, systemMessageAt env 0 user_joined "Welcome to the chat!");
        (ws, userListAt env 3 (users s))]).
Proof.
  now rewrite (run_start _ _ _ _ _ (onConnection_run env ws (start s))).
Qed.

(* ================================================================= *)
(** ** Properties of the specification *)

(** C1. At every point of every sequence of events from the start of
    the server (joins among them), the display names of the joined
    sessions are pairwise distinct once lower-cased: the list of the
    lower-cased names of [users] has no duplicate after every prefix
    of the sequence. *)
Theorem C1_display_names_unique (trace : list (Env * Event)) (n : nat) :
  NoDup (displayNames (runAll (firstn n trace) newChatServer)).
Proof.
  apply names_unique. apply Invariant_runAll. apply Invariant_new.
Qed.

Lemma lastN_short {A} k (l : list A) : length l <= k -> lastN k l = l.
Proof.
  intros H. unfold lastN. now replace (length l - k) with 0 by lia.
Qed.

Lemma lastN_length {A} k (l : list A) : length (lastN k l) = Nat.min (length l) k.
Proof. unfold lastN. rewrite length_skipn. lia. Qed.

Lemma lastN_app_lastN {A} k (a b : list A) :
  lastN k (lastN k a ++ b) = lastN k (a ++ b).
Proof.
  unfold lastN at 2.
  assert (skipn (length a - k) a ++ b = skipn (length a - k) (a ++ b)) as ->.
  { rewrite skipn_app. replace (length a - k - length a) with 0 by lia. reflexivity. }
  unfold lastN. rewrite skipn_skipn. f_equal.
  rewrite length_skipn, !length_app. lia.
Qed.

Lemma pushBounded_lastN h msg :
  length h <= 100 -> pushBounded h msg = lastN 100 (h ++ [msg]).
Proof.
  intros Hh. unfold pushBounded, lastN.
  assert (length (h ++ [msg]) = S (length h)) as Hlen
    by (rewrite length_app; simpl; lia).
  destruct (100 <? length (h ++ [msg])) eqn:Hlt.
  - apply Nat.ltb_lt in Hlt.
    replace (length (h ++ [msg]) - 100) with 1 by lia.
    now destruct (h ++ [msg]).
  - apply Nat.ltb_ge in Hlt.
    now replace (length (h ++ [msg]) - 100) with 0 by lia.
Qed.

Lemma after_handleChatMessage env s userId text :
  after (handleChatMessage userId (JS.Str text)) env s
  = match Spec.recordMessage env s userId text with
    | Some msg => withHistory s (pushBounded (messageHistory s) msg)
    | None => s
    end.
Proof.
  unfold after. rewrite run_handleChatMessage.
  now destruct (Spec.recordMessage env s userId text).
Qed.

Lemma sendMessages_history calls :
  forall s,
    length (messageHistory s) <= 100 ->
    messageHistory (sendMessages calls s)
    = lastN 100 (messageHistory s ++ recorded calls s).
Proof.
  induction calls as [|[[env userId] text] calls IH]; intros s Hs.
  - simpl. rewrite app_nil_r. symmetry. now apply lastN_short.
  - cbn [sendMessages fold_left recorded].
    fold (sendMessages calls (after (handleChatMessage userId (JS.Str text)) env s)).
    rewrite after_handleChatMessage.
    destruct (Spec.recordMessage env s userId text) as [msg|].
    + rewrite IH by (simpl; now apply pushBounded_length).
      cbn [messageHistory withHistory].
      rewrite pushBounded_lastN by assumption.
      rewrite lastN_app_lastN, <- app_assoc. reflexivity.
    + now rewrite IH.
Qed.

(** C2. From an empty history, after any sequence of [sendMessage]
    requests of which [n] are accepted, the history is the last
    [min n 100] accepted events in the order they were sent, so its
    length is [min n 100]; with exactly 101 accepted messages its
    first element is the event of the second one. *)
Theorem C2_history_bounded_fifo (calls : list (Env * string * string)) (s : ChatServer) :
  let s0 := withHistory s [] in
  let events := recorded calls s0 in
  let n := length events in
  let h := messageHistory (sendMessages calls s0) in
  h = skipn (n - 100) events
  /\ length h = Nat.min n 100
  /\ (n = 101 -> hd_error h = nth_error events 1).
Proof.
  intros s0 events n h.
  assert (h = lastN 100 events) as Hh.
  { unfold h. rewrite sendMessages_history by (simpl; lia). reflexivity. }
  split; [exact Hh|]. split.
  - rewrite Hh. apply lastN_length.
  - intros Hn. rewrite Hh. unfold lastN. fold n. rewrite Hn.
    replace (101 - 100) with 1 by lia.
    destruct events as [|e0 [|e1 rest]]; reflexivity.
Qed.

(** C3. A join whose trimmed name is empty, or is held (lower-cased) by
    a joined session, leaves the server ([users], [messageHistory])
    as it was; the only thing sent is one error notice, of type
    [message], to the socket of the request (if it is open), and
    nothing goes to any other socket. *)
Theorem C3_rejected_join_no_effect
  (env : Env) (s : ChatServer) (ws : WebSocket) (userId name : string) :
  JS.trim name = EmptyString
  \/ In (JS.toLowerCase (JS.trim name)) (displayNames s) ->
  let error :=
    if (JS.trim name =? EmptyString)%string
    then "Username is required" else "Username already taken" in
  let notice := errorNoticeAt env 0 error in
  run (handleUserJoin ws userId (JS.Str name)) env s
  = (Normal tt, s, transmit env [(ws, notice)])
  /\ ChatMessage.type notice = message
  /\ ChatMessage.content notice = ("Error: " ++ error)%string
  /\ (readyState env ws = OPEN ->
      outbox (handleUserJoin ws userId (JS.Str name)) env s = [(ws, notice)])
  /\ (forall ws' msg,
        In (ws', msg) (outbox (handleUserJoin ws userId (JS.Str name)) env s) ->
        ws' = ws).
Proof.
  intros Hrej error notice.
  assert (run (handleUserJoin ws userId (JS.Str name)) env s
          = (Normal tt, s, transmit env [(ws, notice)])) as Hrun.
  { unfold notice, error.
    destruct (JS.trim name =? EmptyString)%string eqn:Hblank.
    - apply String.eqb_eq in Hblank. now apply run_handleUserJoin_blank.
    - apply String.eqb_neq in Hblank. destruct Hrej as [Hrej|Hrej]; [now destruct Hblank|].
      now apply run_handleUserJoin_taken. }
  split; [exact Hrun|]. split; [reflexivity|]. split; [reflexivity|].
  unfold outbox. rewrite Hrun. cbn [snd]. split.
  - intros Hopen. unfold transmit; simpl. now rewrite Hopen.
  - intros ws' msg Hin. apply transmit_In in Hin. destruct Hin as [[= <- _]|[]].
    reflexivity.
Qed.

(** C10. In a reachable server, a join request of an already joined
    session whose trimmed name equals, lower-cased, that session's own
    current display name is rejected as taken: the server is unchanged
    and the only thing sent is the notice [Error: Username already
    taken] to the socket of the request. *)
Theorem C10_rejoin_own_name_rejected
  (trace : list (Env * Event)) (env : Env) (ws : WebSocket)
  (userId name : string) (user : User.t) :
  let s := runAll trace newChatServer in
  Map.get (users s) userId = Some user ->
  JS.toLowerCase (JS.trim name) = JS.toLowerCase (User.username user) ->
  let notice := errorNoticeAt env 0 "Username already taken" in
  run (handleUserJoin ws userId (JS.Str name)) env s
  = (Normal tt, s, transmit env [(ws, notice)])
  /\ (forall ws' msg,
        In (ws', msg) (outbox (handleUserJoin ws userId (JS.Str name)) env s) ->
        ws' = ws).
Proof.
  intros s Hget Hsame notice.
  assert (Invariant s) as Hinv by (apply Invariant_runAll, Invariant_new).
  pose proof (get_In_values _ _ _ Hget) as Huser.
  assert (JS.trim name <> EmptyString) as Hname.
  { intros Hblank. rewrite Hblank in Hsame. simpl in Hsame.
    symmetry in Hsame. apply toLowerCase_empty in Hsame.
    pose proof (names_nonblank s Hinv) as Hnb.
    rewrite Forall_forall in Hnb. now apply (Hnb user). }
  assert (In (JS.toLowerCase (JS.trim name)) (displayNames s)) as Htaken.
  { rewrite Hsame. unfold displayNames.
    now apply (in_map (fun u => JS.toLowerCase (User.username u))). }
  assert (run (handleUserJoin ws userId (JS.Str name)) env s
          = (Normal tt, s, transmit env [(ws, notice)])) as Hrun
    by now apply run_handleUserJoin_taken.
  split; [exact Hrun|].
  unfold outbox. rewrite Hrun. cbn [snd].
  intros ws' msg Hin. apply transmit_In in Hin. destruct Hin as [[= <- _]|[]].
  reflexivity.
Qed.

Lemma append_assoc (a b c : string) : ((a ++ b) ++ c = a ++ (b ++ c))%string.
Proof. induction a as [|x a IH]; simpl; [reflexivity | now rewrite IH]. Qed.

Lemma readString_escapeChar c t :
  readString (JS.escapeChar c ++ t)
  = match readString t with
    | Some (d, r) => Some (String c d, r)
    | None => None
    end.
Proof.
  destruct c as [[] [] [] [] [] [] [] []]; simpl;
    destruct (readString t) as [[d r]|]; reflexivity.
Qed.

Lemma readString_escape s t :
  readString (JS.escape s ++ String JS.dquote t) = Some (s, t).
Proof.
  induction s as [|c s IH]; [reflexivity|].
  simpl JS.escape. rewrite append_assoc, readString_escapeChar, IH. reflexivity.
Qed.

Lemma memberJSON_shape m t :
  (memberJSON m ++ t)%string
  = (idPrefix
     ++ (JS.escape (fst m)
         ++ String JS.dquote
              (namePrefix
               ++ (JS.escape (snd m) ++ String JS.dquote (String "}" t)))))%string.
Proof.
  unfold memberJSON, JS.quote, idPrefix, namePrefix. simpl.
  repeat (rewrite !append_assoc; simpl). reflexivity.
Qed.

Lemma append_inv_head (p a b : string) : (p ++ a = p ++ b)%string -> a = b.
Proof. induction p as [|x p IH]; simpl; [easy|]. intros [= H]. now apply IH. Qed.

Lemma memberJSON_inj m m' t t' :
  (memberJSON m ++ t = memberJSON m' ++ t')%string -> m = m' /\ t = t'.
Proof.
  rewrite !memberJSON_shape. intros H.
  apply append_inv_head in H. apply (f_equal readString) in H.
  rewrite !readString_escape in H. injection H as Hid H.
  apply (f_equal readString) in H.
  rewrite !readString_escape in H. injection H as Hname H.
  split; [|assumption]. destruct m, m'; simpl in *. now subst.
Qed.

Lemma concat_cons_append x l t :
  (String.concat "," (x :: l) ++ t)%string
  = (x ++ match l with
          | [] => t
          | _ :: _ => String "," (String.concat "," l ++ t)
          end)%string.
Proof.
  destruct l as [|y l]; [reflexivity|].
  cbn [String.concat]. now rewrite append_assoc.
Qed.

Lemma memberJSON_head m t : exists r, (memberJSON m ++ t)%string = String "{" r.
Proof. rewrite memberJSON_shape. unfold idPrefix. simpl. now eexists. Qed.

Lemma concat_memberJSON_inj ms :
  forall ms',
    (String.concat "," (map memberJSON ms) ++ "]"
     = String.concat "," (map memberJSON ms') ++ "]")%string ->
    ms = ms'.
Proof.
  induction ms as [|x l IH]; intros [|x' l'] H; [reflexivity| | |].
  - cbn [map] in H. rewrite concat_cons_append in H.
    destruct (memberJSON_head x'
                match map memberJSON l' with
                | [] => "]"
                | _ :: _ => String "," (String.concat "," (map memberJSON l') ++ "]")
                end) as (r & Hr).
    rewrite Hr in H. discriminate H.
  - cbn [map] in H. rewrite concat_cons_append in H.
    destruct (memberJSON_head x
                match map memberJSON l with
                | [] => "]"
                | _ :: _ => String "," (String.concat "," (map memberJSON l) ++ "]")
                end) as (r & Hr).
    rewrite Hr in H. discriminate H.
  - cbn [map] in H. rewrite !concat_cons_append in H.
    apply memberJSON_inj in H. destruct H as [-> H]. f_equal.
    destruct l as [|y l0], l' as [|y' l0']; cbn [map] in H.
    + reflexivity.
    + discriminate H.
    + discriminate H.
    + injection H as H. now apply IH.
Qed.

Lemma membersJSON_inj ms ms' : membersJSON ms = membersJSON ms' -> ms = ms'.
Proof.
  unfold membersJSON. intros H. injection H as H. now apply concat_memberJSON_inj.
Qed.

Lemma get_In_entry {V} (m : Map.t V) k v : Map.get m k = Some v -> In (k, v) m.
Proof.
  induction m as [|[k' v'] m IH]; simpl; [discriminate|].
  destruct (k' =? k)%string eqn:Hk.
  - apply String.eqb_eq in Hk. subst k'. intros [= ->]. now left.
  - right. now apply IH.
Qed.

Lemma entries_In us k user :
  In (k, user) us -> In (User.id user, User.username user) (entries us).
Proof.
  intros H. unfold entries.
  now apply (in_map (fun e => (User.id (snd e), User.username (snd e))) us (k, user)).
Qed.

Lemma entries_length us : length (entries us) = Map.size us.
Proof. unfold entries, Map.size. apply length_map. Qed.

Lemma entries_delete us userId :
  Forall (fun e => User.id (snd e) = fst e) us ->
  entries (Map.delete us userId)
  = filter (fun m => negb (fst m =? userId)%string) (entries us).
Proof.
  unfold entries, Map.delete.
  induction 1 as [|[k v] us Hk _ IH]; [reflexivity|].
  cbn [fst snd] in Hk. cbn [filter map fst snd]. rewrite Hk.
  destruct (k =? userId)%string; cbn [negb map fst snd];
    [exact IH | now rewrite IH, Hk].
Qed.

Lemma members_entries us : members us = entries us.
Proof. unfold members, entries, Map.values. now rewrite map_map. Qed.

Lemma userListAt_roster env k us : isRosterOf us (userListAt env k us).
Proof.
  split; [reflexivity|]. split; [reflexivity|].
  intros ms. simpl. unfold userListJSON. rewrite members_entries. split.
  - apply membersJSON_inj.
  - now intros ->.
Qed.

Lemma rosterSends_targets env k us targets :
  map fst (rosterSends env k us targets) = map User.ws targets.
Proof.
  revert k. induction targets as [|u targets IH]; intros k; simpl; [reflexivity|].
  now rewrite IH.
Qed.

Lemma rosterSends_rosters env k us targets :
  Forall (fun p => isRosterOf us (snd p)) (rosterSends env k us targets).
Proof.
  revert k. induction targets as [|u targets IH]; intros k; simpl; constructor.
  - apply userListAt_roster.
  - apply IH.
Qed.

Lemma rosterSends_In env k us targets user :
  In user targets ->
  exists roster,
    isRosterOf us roster /\ In (User.ws user, roster) (rosterSends env k us targets).
Proof.
  revert k. induction targets as [|u targets IH]; intros k Hin; [destruct Hin|].
  destruct Hin as [->|Hin].
  - exists (userListAt env k us). split; [apply userListAt_roster | now left].
  - destruct (IH (k + 3) Hin) as (roster & Hr & Hin'). exists roster.
    split; [assumption | now right].
Qed.

Lemma transmit_In_open env p out :
  readyState env (fst p) = OPEN -> In p out -> In p (transmit env out).
Proof.
  intros Hopen Hin. unfold transmit. apply filter_In. split; [assumption|].
  now rewrite Hopen.
Qed.

Lemma receivesInOrder_app env (A R : list Send) ws a r :
  readyState env ws = OPEN ->
  In (ws, a) A -> In (ws, r) R ->
  receivesInOrder (transmit env (A ++ R)) ws a r.
Proof.
  intros Hopen Ha Hr. rewrite transmit_app.
  apply (transmit_In_open env (ws, a)) in Ha; [|assumption].
  apply (transmit_In_open env (ws, r)) in Hr; [|assumption].
  apply in_split in Ha. destruct Ha as (l1 & l2 & ->).
  apply in_split in Hr. destruct Hr as (l3 & l4 & ->).
  exists l1, (l2 ++ l3), l4. rewrite <- !app_assoc. reflexivity.
Qed.

Lemma fanout_in_order env (us : Map.t User.t) k notice (rest : list Send) user :
  In user (Map.values us) ->
  readyState env (User.ws user) = OPEN ->
  exists roster,
    isRosterOf us roster
    /\ receivesInOrder (transmit env (toAll us notice ++ rosterToAll env k us ++ rest))
         (User.ws user) notice roster.
Proof.
  intros Hin Hopen.
  destruct (rosterSends_In env k us (Map.values us) user Hin) as (roster & Hr & Hin').
  exists roster. split; [assumption|].
  apply receivesInOrder_app; [assumption | |].
  - unfold toAll. now apply (in_map (fun u => (User.ws u, notice))).
  - apply in_or_app. now left.
Qed.

(** C5. A join that is accepted (trimmed name not empty and held,
    lower-cased, by no joined session) binds the name and then sends,
    in this order: (a) one [user_joined] notice to every joined session,
    the new one included; (b) to every joined session a [user_list]
    message of its own whose content is the JSON text of exactly the
    sessions joined after the join (the joiner under its new name, and
    every other session as it was); (c) every entry
    of the history, oldest first, one message each, to the socket of
    the request alone. Each send reaches the wire when its socket is
    open ([transmit]); every joined session whose socket is open gets
    the notice and, after it, its roster. *)
Theorem C5_accepted_join_fanout
  (env : Env) (s : ChatServer) (ws : WebSocket) (userId name : string) :
  JS.trim name <> EmptyString ->
  ~ In (JS.toLowerCase (JS.trim name)) (displayNames s) ->
  let us := joined s ws userId (JS.trim name) in
  let joinMessage :=
    systemMessageAt env 0 user_joined (JS.trim name ++ " joined the chat")%string in
  run (handleUserJoin ws userId (JS.Str name)) env s
  = (Normal tt, withUsers s us,
     transmit env
       (toAll us joinMessage
        ++ rosterToAll env 3 us
        ++ historyTo ws (messageHistory s)))
  /\ Map.get us userId
     = Some {| User.id := userId; User.username := JS.trim name; User.ws := ws |}
  /\ ChatMessage.type joinMessage = user_joined
  /\ map fst (toAll us joinMessage) = map User.ws (Map.values us)
  /\ map fst (rosterToAll env 3 us) = map User.ws (Map.values us)
  /\ Forall (fun p => isRosterOf us (snd p)) (rosterToAll env 3 us)
  /\ In (userId, JS.trim name) (entries us)
  /\ (forall k user,
        k <> userId ->
        Map.get (users s) k = Some user ->
        In (User.id user, User.username user) (entries us))
  /\ length (entries us) = Map.size us
  /\ historyTo ws (messageHistory s) = map (fun msg => (ws, msg)) (messageHistory s)
  /\ ((forall ws', readyState env ws' = OPEN) ->
      outbox (handleUserJoin ws userId (JS.Str name)) env s
      = toAll us joinMessage
        ++ rosterToAll env 3 us
        ++ historyTo ws (messageHistory s))
  /\ (forall user,
        In user (Map.values us) ->
        readyState env (User.ws user) = OPEN ->
        exists roster,
          isRosterOf us roster
          /\ receivesInOrder (outbox (handleUserJoin ws userId (JS.Str name)) env s)
               (User.ws user) joinMessage roster).
Proof.
  intros Hname Hfree us joinMessage.
  pose proof (run_handleUserJoin_accepted env s ws userId name Hname Hfree) as Hrun.
  split; [exact Hrun|].
  split; [apply get_set_same|].
  split; [reflexivity|].
  split; [unfold toAll; rewrite map_map; reflexivity|].
  split; [apply rosterSends_targets|].
  split; [apply rosterSends_rosters|].
  split.
  { apply (entries_In us userId
             {| User.id := userId; User.username := JS.trim name; User.ws := ws |}).
    apply get_In_entry. apply get_set_same. }
  split.
  { intros k user Hne Hget. apply (entries_In us k user). apply get_In_entry.
    unfold us, joined. now rewrite get_set_other. }
  split; [apply entries_length|].
  split; [reflexivity|].
  unfold outbox. rewrite Hrun. cbn [snd]. split.
  - intros Hopen. now apply transmit_all_open.
  - intros user Hin Hopen. now apply fanout_in_order.
Qed.

Section Requests.
Variable env : Env.

Lemma handleUserJoin_Str_normal ws userId name w :
  fst (handleUserJoin ws userId (JS.Str name) env w) = Normal tt.
Proof.
  destruct (string_dec_empty (JS.trim name)) as [Hblank|Hname].
  - now rewrite handleUserJoin_blank.
  - destruct (find (sameName (JS.trim name)) (Map.values (users (server w))))
      as [existingUser|] eqn:Hfind.
    + now rewrite (handleUserJoin_taken env ws userId name existingUser).
    + now rewrite handleUserJoin_accepted.
Qed.

Lemma handleChatMessage_Str_normal userId text w :
  fst (handleChatMessage userId (JS.Str text) env w) = Normal tt.
Proof.
  destruct (Map.get (users (server w)) userId) as [user|] eqn:Hget.
  - destruct (string_dec_empty (JS.trim text)) as [Hblank|Htext].
    + now rewrite handleChatMessage_blank.
    + now rewrite (handleChatMessage_accepted env userId text user).
  - now rewrite handleChatMessage_not_joined.
Qed.

(** A [join] request with a string [username] goes to
    [handleUserJoin], and nothing is caught. *)
Lemma onMessage_join ws userId msg name w :
  isRequest msg "join" "username" name ->
  onMessage ws userId (Some msg) env w = handleUserJoin ws userId (JS.Str name) env w.
Proof.
  intros [Htype Hfield]. unfold onMessage, tryCatch, jsonParse, handleMessage.
  js_step. rewrite Htype. js_step.
  change ("join" =? "join")%string with true. cbv iota.
  rewrite Hfield. js_step.
  pose proof (handleUserJoin_Str_normal ws userId name w) as Hn.
  destruct (handleUserJoin ws userId (JS.Str name) env w) as [[[]|e] w'];
    [reflexivity | discriminate].
Qed.

(** A [message] request goes to [handleChatMessage]; an exception of
    the handler is caught by the callback. *)
Lemma onMessage_chat ws userId msg content w :
  JS.getProp msg "type" = inl (JS.Str "message") ->
  JS.getProp msg "content" = inl content ->
  onMessage ws userId (Some msg) env w
  = tryCatch (handleChatMessage userId content)
      (fun _ => sendError ws "Invalid message format") env w.
Proof.
  intros Htype Hfield. unfold onMessage, tryCatch, jsonParse, handleMessage.
  js_step. rewrite Htype. js_step.
  change ("message" =? "join")%string with false.
  change ("message" =? "message")%string with true. cbv iota.
  rewrite Hfield. js_step. reflexivity.
Qed.

Lemma onMessage_chat_Str ws userId msg text w :
  isRequest msg "message" "content" text ->
  onMessage ws userId (Some msg) env w = handleChatMessage userId (JS.Str text) env w.
Proof.
  intros [Htype Hfield]. rewrite (onMessage_chat ws userId msg (JS.Str text)) by assumption.
  unfold tryCatch.
  pose proof (handleChatMessage_Str_normal userId text w) as Hn.
  destruct (handleChatMessage userId (JS.Str text) env w) as [[[]|e] w'];
    [reflexivity | discriminate].
Qed.

Lemma run_ext {A} (m m' : M A) s :
  (forall w, m env w = m' env w) -> run m env s = run m' env s.
Proof. intros H. unfold run. now rewrite H. Qed.

End Requests.

(** C6. An inbound [message] request from a session that is not joined
    (whatever its content), or whose content is a string that is empty
    once trimmed, does nothing at all: no send, no notice, the server
    unchanged. From a joined session with a content that is not empty
    once trimmed, the message event (trimmed content, the sender's name
    and id) is sent to every joined session. *)
Theorem C6_chat_message_dropped_or_broadcast
  (env : Env) (s : ChatServer) (ws : WebSocket) (userId : string) (msg : JS.Value) :
  (forall content,
     JS.getProp msg "type" = inl (JS.Str "message") ->
     JS.getProp msg "content" = inl content ->
     Map.get (users s) userId = None ->
     run (onMessage ws userId (Some msg)) env s = (Normal tt, s, []))
  /\ (forall text,
        isRequest msg "message" "content" text ->
        JS.trim text = EmptyString ->
        run (onMessage ws userId (Some msg)) env s = (Normal tt, s, []))
  /\ (forall text user,
        isRequest msg "message" "content" text ->
        Map.get (users s) userId = Some user ->
        JS.trim text <> EmptyString ->
        let event :=
          {| ChatMessage.id := messageIdAt env 0;
             ChatMessage.type := message;
             ChatMessage.content := JS.trim text;
             ChatMessage.username := User.username user;
             ChatMessage.timestamp := dateNow env 2;
             ChatMessage.userId := Some (User.id user) |} in
        run (onMessage ws userId (Some msg)) env s
        = (Normal tt,
           withHistory s (pushBounded (messageHistory s) event),
           transmit env (toAll (users s) event))
        /\ map fst (toAll (users s) event) = map User.ws (Map.values (users s))
        /\ ((forall ws', readyState env ws' = OPEN) ->
            outbox (onMessage ws userId (Some msg)) env s = toAll (users s) event)).
Proof.
  split; [|split].
  - intros content Htype Hfield Hget.
    rewrite (run_ext env _ _ s
               (fun w => onMessage_chat env ws userId msg content w Htype Hfield)).
    apply (run_start _ env s (Normal tt) (start s)). unfold tryCatch.
    now rewrite handleChatMessage_not_joined.
  - intros text Hreq Hblank.
    rewrite (run_ext env _ _ s
               (fun w => onMessage_chat_Str env ws userId msg text w Hreq)).
    rewrite run_handleChatMessage. unfold Spec.recordMessage.
    destruct (Map.get (users s) userId); [|reflexivity].
    now rewrite Hblank.
  - intros text user Hreq Hget Htext event.
    assert (run (onMessage ws userId (Some msg)) env s
            = (Normal tt, withHistory s (pushBounded (messageHistory s) event),
               transmit env (toAll (users s) event))) as Hrun.
    { rewrite (run_ext env _ _ s
                 (fun w => onMessage_chat_Str env ws userId msg text w Hreq)).
      rewrite run_handleChatMessage. unfold Spec.recordMessage. rewrite Hget.
      apply String.eqb_neq in Htext. rewrite Htext. reflexivity. }
    split; [exact Hrun|]. split.
    + unfold toAll. now rewrite map_map.
    + intros Hopen. unfold outbox. rewrite Hrun. cbn [snd].
      now apply transmit_all_open.
Qed.

Lemma deleted_ids (s : ChatServer) userId :
  Invariant s ->
  ~ In userId (map fst (entries (Map.delete (users s) userId))).
Proof.
  intros Hinv Hin. unfold entries in Hin. rewrite !map_map in Hin.
  apply in_map_iff in Hin. destruct Hin as (e & Hid & He). simpl in Hid.
  unfold Map.delete in He. apply filter_In in He. destruct He as [He Hkey].
  pose proof (ids_are_keys s Hinv) as Hk. rewrite Forall_forall in Hk.
  rewrite (Hk e He) in Hid. rewrite Hid, String.eqb_refl in Hkey. discriminate.
Qed.

(** C7. In a reachable server, the disconnect ([close] or [error]) of a
    joined session removes it and sends, in this order, one [user_left]
    notice to every remaining joined session and then, to every
    remaining joined session, a [user_list] message whose content is
    the JSON text of exactly the roster before without the session that
    left (every remaining session is listed, it is not): every
    remaining session whose socket is open gets the notice and, after
    it, its roster. The disconnect of a session that is not joined
    sends nothing. *)
Theorem C7_disconnect_fanout
  (trace : list (Env * Event)) (env : Env) (userId : string) :
  let s := runAll trace newChatServer in
  (forall user,
     Map.get (users s) userId = Some user ->
     let us := Map.delete (users s) userId in
     let leaveMessage :=
       systemMessageAt env 0 user_left (User.username user ++ " left the chat")%string in
     run (onClose userId) env s
     = (Normal tt, withUsers s us,
        transmit env (toAll us leaveMessage ++ rosterToAll env 3 us))
     /\ run (onError userId) env s = run (onClose userId) env s
     /\ ChatMessage.type leaveMessage = user_left
     /\ map fst (toAll us leaveMessage) = map User.ws (Map.values us)
     /\ map fst (rosterToAll env 3 us) = map User.ws (Map.values us)
     /\ Forall (fun p => isRosterOf us (snd p)) (rosterToAll env 3 us)
     /\ entries us
        = filter (fun m => negb (fst m =? userId)%string) (entries (users s))
     /\ ~ In userId (map fst (entries us))
     /\ (forall k remaining,
           k <> userId ->
           Map.get (users s) k = Some remaining ->
           In (k, User.username remaining) (entries us))
     /\ Map.get us userId = None
     /\ ((forall ws, readyState env ws = OPEN) ->
         outbox (onClose userId) env s = toAll us leaveMessage ++ rosterToAll env 3 us)
     /\ (forall remaining,
           In remaining (Map.values us) ->
           readyState env (User.ws remaining) = OPEN ->
           exists roster,
             isRosterOf us roster
             /\ receivesInOrder (outbox (onClose userId) env s)
                  (User.ws remaining) leaveMessage roster))
  /\ (Map.get (users s) userId = None ->
      run (onClose userId) env s = (Normal tt, s, [])
      /\ run (onError userId) env s = (Normal tt, s, [])).
Proof.
  intros s. split.
  - intros user Hget us leaveMessage.
    assert (run (onClose userId) env s
            = (Normal tt, withUsers s us,
               transmit env (toAll us leaveMessage ++ rosterToAll env 3 us))) as Hrun.
    { unfold onClose. rewrite run_handleUserDisconnect, Hget. reflexivity. }
    split; [exact Hrun|].
    split; [reflexivity|]. split; [reflexivity|].
    split; [unfold toAll; rewrite map_map; reflexivity|].
    split; [apply rosterSends_targets|].
    split; [apply rosterSends_rosters|].
    assert (Invariant s) as Hinv by apply Invariant_runAll, Invariant_new.
    split; [apply entries_delete; apply (ids_are_keys s Hinv)|].
    split; [now apply deleted_ids|].
    split.
    { intros k remaining Hne Hrem.
      pose proof (ids_are_keys s Hinv) as Hids. rewrite Forall_forall in Hids.
      pose proof (get_In_entry _ _ _ Hrem) as Hin. specialize (Hids _ Hin).
      simpl in Hids. rewrite <- Hids at 1.
      apply (entries_In us k remaining). apply get_In_entry.
      unfold us. now rewrite get_delete_other. }
    split; [apply get_delete_same|].
    unfold outbox. rewrite Hrun. cbn [snd]. split.
    + intros Hopen. now apply transmit_all_open.
    + intros remaining Hin Hopen.
      rewrite <- (app_nil_r (rosterToAll env 3 us)).
      now apply fanout_in_order.
  - intros Hget. unfold onClose, onError.
    rewrite run_handleUserDisconnect, Hget. now split.
Qed.

(** C8. Disconnect handling is idempotent: run a second time for the
    same session id it leaves the server as the first run left it and
    sends nothing, because the first run left no entry for the id (the
    lookup finds no name). The first run sends the [user_left] notice
    and the rosters when a name was bound, and nothing when none was. *)
Theorem C8_disconnect_idempotent
  (env1 env2 : Env) (s : ChatServer) (userId : string) :
  let s1 := after (handleUserDisconnect userId) env1 s in
  run (handleUserDisconnect userId) env2 s1 = (Normal tt, s1, [])
  /\ Map.get (users s1) userId = None
  /\ (Map.get (users s) userId = None ->
      run (handleUserDisconnect userId) env1 s = (Normal tt, s, []))
  /\ (forall user,
        Map.get (users s) userId = Some user ->
        let us := Map.delete (users s) userId in
        let leaveMessage :=
          systemMessageAt env1 0 user_left (User.username user ++ " left the chat")%string in
        run (handleUserDisconnect userId) env1 s
        = (Normal tt, withUsers s us,
           transmit env1 (toAll us leaveMessage ++ rosterToAll env1 3 us))).
Proof.
  intros s1.
  assert (Map.get (users s1) userId = None) as Hnone.
  { unfold s1, after. rewrite run_handleUserDisconnect.
    destruct (Map.get (users s) userId) as [user|] eqn:Hget; simpl.
    - apply get_delete_same.
    - exact Hget. }
  split; [|split; [|split]].
  - rewrite run_handleUserDisconnect, Hnone. reflexivity.
  - exact Hnone.
  - intros Hget. rewrite run_handleUserDisconnect, Hget. reflexivity.
  - intros user Hget us leaveMessage.
    rewrite run_handleUserDisconnect, Hget. reflexivity.
Qed.

(* ----------------------------------------------------------------- *)
(** *** Connection accept *)

Lemma numberToString_inj a b : JS.numberToString a = JS.numberToString b -> a = b.
Proof.
  unfold JS.numberToString. intros H.
  assert (forall z, Z.to_int z <> Decimal.Pos Decimal.Nil
                    /\ Z.to_int z <> Decimal.Neg Decimal.Nil) as Hnil.
  { intros [|p|p]; simpl; split; try discriminate;
      intros [= Hp]; now apply (DecimalPos.Unsigned.to_uint_nonnil p). }
  apply (f_equal NilZero.int_of_string) in H.
  rewrite !NilZero.isi in H by apply Hnil.
  injection H as H. apply (f_equal Z.of_int) in H.
  now rewrite !DecimalZ.of_to in H.
Qed.

Lemma userIdOf_inj a b : userIdOf a = userIdOf b -> a = b.
Proof.
  unfold userIdOf. simpl. intros [= H]. now apply numberToString_inj.
Qed.

Lemma step_connection env s ws :
  step s (env, Connection ws) = withNextUserId s (postIncrement (nextUserId s)).
Proof.
  unfold step; simpl fst; simpl snd. rewrite after_world.
  unfold dispatch. js_step. now rewrite onConnection_run.
Qed.

Lemma completion_onConnection env s ws :
  completion (onConnection ws) env s = Normal (userIdOf (nextUserId s)).
Proof.
  unfold completion. now rewrite run_onConnection.
Qed.

Lemma step_counter env s ev :
  nextUserId (step s (env, ev))
  = match ev with
    | Connection _ => postIncrement (nextUserId s)
    | _ => nextUserId s
    end.
Proof.
  destruct ev as [ws|ws userId data|userId|userId].
  - now rewrite step_connection.
  - remember (Message ws userId data) as ev eqn:Hev.
    destruct (step_transition env ev s); try discriminate; reflexivity.
  - remember (Close userId) as ev eqn:Hev.
    destruct (step_transition env ev s); try discriminate; reflexivity.
  - remember (Error userId) as ev eqn:Hev.
    destruct (step_transition env ev s); try discriminate; reflexivity.
Qed.

Lemma postIncrement_counterAt n k :
  (n <= 9007199254740992)%Z ->
  (postIncrement n <= 9007199254740992)%Z
  /\ counterAt (postIncrement n) k = counterAt n (S k).
Proof.
  intros Hn. unfold postIncrement, counterAt.
  destruct (Z.ltb_spec n 9007199254740992); split; lia.
Qed.

(** The ids of the connections of a trace, and the counter after it:
    the connection number [k] (from 0) gets the counter's value after
    [k] increments. *)
Lemma assignedIds_counted trace :
  forall s,
    (nextUserId s <= 9007199254740992)%Z ->
    assignedIds trace s
    = map (fun k => userIdOf (counterAt (nextUserId s) k)) (seq 0 (connections trace))
    /\ nextUserId (runAll trace s) = counterAt (nextUserId s) (connections trace).
Proof.
  induction trace as [|[env ev] trace IH]; intros s Hs.
  - simpl. split; [reflexivity | unfold counterAt; lia].
  - cbn [assignedIds runAll fold_left]. fold (runAll trace (step s (env, ev))).
    pose proof (step_counter env s ev) as Hstep.
    destruct ev as [ws|ws userId data|userId|userId]; cbn [connections];
      try (match goal with
           | |- context [step s ?e] =>
               destruct (IH (step s e)) as [Hids Hnext];
               [now rewrite Hstep | rewrite Hids, Hnext, Hstep; now split]
           end).
    destruct (postIncrement_counterAt (nextUserId s) 0 Hs) as [Hle _].
    destruct (IH (step s (env, Connection ws))) as [Hids Hnext];
      [now rewrite Hstep|].
    rewrite Hids, Hnext, Hstep, completion_onConnection.
    split.
    + cbn [seq map app]. f_equal.
      * f_equal. unfold counterAt. lia.
      * rewrite <- seq_shift, map_map. apply map_ext. intros k. f_equal.
        now apply postIncrement_counterAt.
    + now apply postIncrement_counterAt.
Qed.

(** The counter of a reachable server is an integer that a double holds
    exactly, between 1 and 2^53. *)
Lemma counter_range trace :
  (1 <= nextUserId (runAll trace newChatServer) <= 9007199254740992)%Z.
Proof.
  destruct (assignedIds_counted trace newChatServer) as [_ ->]; [simpl; lia|].
  unfold counterAt. simpl nextUserId. lia.
Qed.

Lemma assignedIds_In trace userId :
  In userId (assignedIds trace newChatServer) ->
  exists k,
    k < connections trace /\ userId = userIdOf (counterAt 1 k).
Proof.
  destruct (assignedIds_counted trace newChatServer) as [-> _]; [simpl; lia|].
  intros Hin. apply in_map_iff in Hin. destruct Hin as (k & <- & Hk).
  apply in_seq in Hk. exists k. split; [lia | reflexivity].
Qed.

(** C9, amended. On a new connection, after any sequence of events, the
    acceptor assigns the id [user_<nextUserId>] and moves the counter
    on as a double does: by one below 2^53, not at all at 2^53. The
    counter of a server reached from the start is between 1 and 2^53,
    and while fewer than 2^53 connections have been accepted before,
    the id has been assigned to none of them and the counter is their
    number plus one. The callback sends to the new socket first the
    welcome notice, which is an event of kind [user_joined] with the
    text [Welcome to the chat!] from [System], and then a [user_list]
    message whose content is the JSON text of exactly the sessions
    joined at that moment; the server is otherwise unchanged. The two
    sends belong to the connection callback's own run. *)
Theorem C9_connection_accept
  (trace : list (Env * Event)) (env : Env) (ws : WebSocket) :
  let s := runAll trace newChatServer in
  let userId := userIdOf (nextUserId s) in
  let welcome := systemMessageAt env 0 user_joined "Welcome to the chat!" in
  let roster := userListAt env 3 (users s) in
  run (onConnection ws) env s
  = (Normal userId, withNextUserId s (postIncrement (nextUserId s)),
     transmit env [(ws, welcome); (ws, roster)])
  /\ (1 <= nextUserId s <= 9007199254740992)%Z
  /\ ((Z.of_nat (connections trace) < 9007199254740992)%Z ->
      ~ In userId (assignedIds trace newChatServer)
      /\ nextUserId s = Z.of_nat (S (connections trace)))
  /\ ((nextUserId s < 9007199254740992)%Z ->
      nextUserId (after (onConnection ws) env s) = (nextUserId s + 1)%Z)
  /\ ChatMessage.type welcome = user_joined
  /\ ChatMessage.content welcome = "Welcome to the chat!"
  /\ ChatMessage.username welcome = "System"
  /\ isRosterOf (users s) roster
  /\ (forall k user,
        Map.get (users s) k = Some user ->
        exists ms,
          membersJSON ms = ChatMessage.content roster
          /\ In (k, User.username user) ms
          /\ length ms = Map.size (users s))
  /\ (readyState env ws = OPEN ->
      outbox (onConnection ws) env s = [(ws, welcome); (ws, roster)]).
Proof.
  intros s userId welcome roster.
  assert (Invariant s) as Hinv by apply Invariant_runAll, Invariant_new.
  destruct (assignedIds_counted trace newChatServer) as [_ Hnext]; [simpl; lia|].
  fold s in Hnext. simpl nextUserId in Hnext. unfold counterAt in Hnext.
  split; [apply run_onConnection|].
  split; [apply counter_range|].
  split.
  { intros Hbound. split; [|lia].
    intros Hin. apply assignedIds_In in Hin. destruct Hin as (k & Hk & Heq).
    apply userIdOf_inj in Heq. unfold counterAt in Heq. lia. }
  split.
  { intros Hbelow. unfold after. rewrite run_onConnection. cbn [fst snd].
    cbn [nextUserId withNextUserId]. unfold postIncrement.
    destruct (Z.ltb_spec (nextUserId s) 9007199254740992); [reflexivity | lia]. }
  split; [reflexivity|]. split; [reflexivity|]. split; [reflexivity|].
  split; [apply userListAt_roster|].
  split.
  { intros k user Hget. exists (entries (users s)).
    split; [simpl; unfold userListJSON; now rewrite members_entries|].
    split; [|apply entries_length].
    pose proof (ids_are_keys s Hinv) as Hids. rewrite Forall_forall in Hids.
    pose proof (get_In_entry _ _ _ Hget) as Hin. specialize (Hids _ Hin).
    simpl in Hids. rewrite <- Hids at 1. now apply (entries_In (users s) k user). }
  intros Hopen. unfold outbox. rewrite run_onConnection. cbn [snd].
  unfold transmit; simpl. now rewrite Hopen.
Qed.

(* ----------------------------------------------------------------- *)
(** *** The display name of a joined session *)

Lemma step_join_accepted env s ws userId msg name :
  isRequest msg "join" "username" name ->
  JS.trim name <> EmptyString ->
  ~ In (JS.toLowerCase (JS.trim name)) (displayNames s) ->
  step s (env, Message ws userId (Some msg))
  = withUsers s (joined s ws userId (JS.trim name)).
Proof.
  intros Hreq Hname Hfree. unfold step, after. cbn [fst snd dispatch].
  rewrite (run_ext env _ _ s (fun w => onMessage_join env ws userId msg name w Hreq)).
  now rewrite run_handleUserJoin_accepted.
Qed.

(** C4, amended. Once a session has a display name, an event leaves the
    name as it is, unless it is the session's own [close] or [error],
    which removes the session, or a further join request of that same
    session whose trimmed name is not empty and is held, lower-cased,
    by no joined session; and every such request is accepted and
    rebinds the display name to the new trimmed name. *)
Theorem C4_display_name_rebound_only_by_own_join
  (env : Env) (s : ChatServer) (ev : Event) (userId : string) (user : User.t) :
  Map.get (users s) userId = Some user ->
  let s' := step s (env, ev) in
  ((exists user',
      Map.get (users s') userId = Some user'
      /\ User.username user' = User.username user)
   \/ ((ev = Close userId \/ ev = Error userId) /\ Map.get (users s') userId = None)
   \/ (exists ws msg name,
         ev = Message ws userId (Some msg)
         /\ isRequest msg "join" "username" name
         /\ JS.trim name <> EmptyString
         /\ ~ In (JS.toLowerCase (JS.trim name)) (displayNames s)
         /\ Map.get (users s') userId
            = Some {| User.id := userId; User.username := JS.trim name; User.ws := ws |}))
  /\ (forall ws msg name,
        ev = Message ws userId (Some msg) ->
        isRequest msg "join" "username" name ->
        JS.trim name <> EmptyString ->
        ~ In (JS.toLowerCase (JS.trim name)) (displayNames s) ->
        Map.get (users s') userId
        = Some {| User.id := userId; User.username := JS.trim name; User.ws := ws |}).
Proof.
  intros Hget s'. unfold s'. split.
  2:{ intros ws msg name -> Hreq Hname Hfree.
      rewrite (step_join_accepted env s ws userId msg name Hreq Hname Hfree).
      simpl. apply get_set_same. }
  destruct (step_transition env ev s)
    as [ev|ws|ws userId' msg name Hreq Hname Hfind
       |ws userId' msg text sender _ _ _|ev userId' leaving Hev Hleaving].
  - left. now exists user.
  - left. now exists user.
  - destruct (String.eqb_spec userId userId') as [<-|Hne].
    + right; right. exists ws, msg, name.
      split; [reflexivity|]. split; [assumption|]. split; [assumption|].
      split; [now apply find_sameName_None|].
      simpl. apply get_set_same.
    + left. exists user. split; [|reflexivity].
      simpl. unfold joined. now rewrite get_set_other.
  - left. now exists user.
  - destruct (String.eqb_spec userId userId') as [<-|Hne].
    + right; left. split; [assumption|]. simpl. apply get_delete_same.
    + left. exists user. split; [|reflexivity].
      simpl. now rewrite get_delete_other.
Qed.

(* ================================================================= *)
(** ** Scenarios *)

Example aliceJoined_server :
  runAll aliceJoined newChatServer
  = {| users := [("user_1", alice)]; messageHistory := []; nextUserId := 3%Z |}.
Proof. reflexivity. Qed.

(** The scenario of the specification: the second session asks for
    [Alice] and is refused; it stays unjoined and only it is told. *)
Example second_alice_rejected :
  run (dispatch (Message 2 "user_2" (Some (joinRequest "Alice")))) env0
    (runAll aliceJoined newChatServer)
  = (Normal tt, runAll aliceJoined newChatServer,
     [(2, errorNoticeAt env0 0 "Username already taken")]).
Proof. reflexivity. Qed.

(** The scenario of the specification: [alice] sends [hi]; every joined
    session gets the message event and the history holds it. *)
Example alice_says_hi :
  let s := runAll aliceJoined newChatServer in
  let event := chatMessageAt env0 0 alice "hi" in
  run (dispatch (Message 1 "user_1" (Some (chatRequest " hi ")))) env0 s
  = (Normal tt, withHistory s [event], [(1, event)])
  /\ ChatMessage.username event = "alice"
  /\ ChatMessage.content event = "hi"
  /\ getConnectedUsersCount s = 1.
Proof. repeat split. Qed.

(** The scenario of the specification: after 101 accepted messages the
    history holds 100 entries and starts with the second message. *)
Example hundredAndOne_history :
  let h := messageHistory (sendMessages hundredAndOne (runAll aliceJoined newChatServer)) in
  length h = 100
  /\ option_map ChatMessage.content (hd_error h) = Some "m2"
  /\ option_map ChatMessage.content (nth_error h 99) = Some "m101".
Proof. vm_compute. repeat split. Qed.

(** The scenario of the specification: [alice] disconnects while [bob]
    is joined; [bob] gets [user_left] and then the roster without
    [alice]; a second disconnect of [alice] does nothing. *)
Example alice_leaves :
  let s :=
    runAll (aliceJoined ++ [(env0, Message 2 "user_2" (Some (joinRequest "bob")))])
      newChatServer in
  let bob := {| User.id := "user_2"; User.username := "bob"; User.ws := 2 |} in
  run (onClose "user_1") env0 s
  = (Normal tt, withUsers s [("user_2", bob)],
     [(2, systemMessageAt env0 0 user_left "alice left the chat");
      (2, userListAt env0 3 [("user_2", bob)])])
  /\ run (onClose "user_1") env0 (withUsers s [("user_2", bob)])
     = (Normal tt, withUsers s [("user_2", bob)], []).
Proof. split; reflexivity. Qed.

(** C4 fails as stated: the joined session [user_1] sends a second join
    request, for the free name [bob], and its display name changes from
    [alice] to [bob]. *)
Lemma C4_counterexample : ~ C4_as_stated.
Proof.
  intros H.
  specialize (H aliceJoined env0 (Message 1 "user_1" (Some (joinRequest "bob")))
                "user_1" alice
                {| User.id := "user_1"; User.username := "bob"; User.ws := 1 |}).
  cbv zeta in H.
  assert (User.username {| User.id := "user_1"; User.username := "bob"; User.ws := 1 |}
          = User.username alice) as Habs by (apply H; reflexivity).
  discriminate Habs.
Qed.

Lemma C4_witness :
  Map.get
    (users (step (runAll aliceJoined newChatServer)
              (env0, Message 1 "user_1" (Some (joinRequest " bob ")))))
    "user_1"
  = Some {| User.id := "user_1"; User.username := "bob"; User.ws := 1 |}.
Proof.
  apply (proj2 (C4_display_name_rebound_only_by_own_join env0
                  (runAll aliceJoined newChatServer)
                  (Message 1 "user_1" (Some (joinRequest " bob "))) "user_1" alice
                  eq_refl)
           1 (joinRequest " bob ") " bob " eq_refl).
  - split; reflexivity.
  - discriminate.
  - simpl. intros [H|[]]. discriminate H.
Defined.

(** C9 fails as stated: the welcome sent to the first connection is of
    kind [user_joined], not [message]. *)
Lemma C9_counterexample : ~ C9_as_stated.
Proof.
  intros H. destruct (H [] env0 1) as (userId & welcome & roster & _ & _ & Hout & Hty & _).
  change (outbox (onConnection 1) env0 (runAll [] newChatServer))
    with [(1, systemMessageAt env0 0 user_joined "Welcome to the chat!");
          (1, userListAt env0 3 [])] in Hout.
  change (transmit env0 [(1, welcome); (1, roster)])
    with [(1, welcome); (1, roster)] in Hout.
  injection Hout as Hw _. rewrite <- Hw in Hty. discriminate Hty.
Qed.

Lemma C3_witness :
  run (handleUserJoin 2 "user_2" (JS.Str " ALICE ")) env0
    (runAll aliceJoined newChatServer)
  = (Normal tt, runAll aliceJoined newChatServer,
     [(2, errorNoticeAt env0 0 "Username already taken")]).
Proof.
  apply (C3_rejected_join_no_effect env0 (runAll aliceJoined newChatServer) 2
           "user_2" " ALICE ").
  right. simpl. left. reflexivity.
Defined.

Lemma C5_witness :
  let s := runAll aliceSaidHi newChatServer in
  let bob := {| User.id := "user_2"; User.username := "bob"; User.ws := 2 |} in
  let us := [("user_1", alice); ("user_2", bob)] in
  messageHistory s = [chatMessageAt env0 0 alice "hi"]
  /\ outbox (handleUserJoin 2 "user_2" (JS.Str "bob")) env0 s
     = [(1, systemMessageAt env0 0 user_joined "bob joined the chat");
        (2, systemMessageAt env0 0 user_joined "bob joined the chat");
        (1, userListAt env0 3 us);
        (2, userListAt env0 6 us);
        (2, chatMessageAt env0 0 alice "hi")]
  /\ entries us = [("user_1", "alice"); ("user_2", "bob")]
  /\ ChatMessage.content (userListAt env0 3 us)
     = ("[{" ++ quoted "id" ++ ":" ++ quoted "user_1" ++ ","
             ++ quoted "username" ++ ":" ++ quoted "alice" ++ "},{"
             ++ quoted "id" ++ ":" ++ quoted "user_2" ++ ","
             ++ quoted "username" ++ ":" ++ quoted "bob" ++ "}]")%string.
Proof.
  intros s bob us.
  destruct (C5_accepted_join_fanout env0 s 2 "user_2" "bob"
              ltac:(discriminate)
              ltac:(simpl; intros [H|[]]; discriminate H))
    as (Hrun & _ & _ & _ & _ & _ & Hbob & Hothers & _).
  split; [reflexivity|]. split.
  - unfold outbox. rewrite Hrun. reflexivity.
  - split; reflexivity.
Defined.

Lemma C7_witness :
  let s := runAll bobJoined newChatServer in
  entries (users s) = [("user_1", "alice"); ("user_2", "bob")]
  /\ outbox (onClose "user_1") env0 s
     = [(2, systemMessageAt env0 0 user_left "alice left the chat");
        (2, userListAt env0 3 [("user_2", bob)])]
  /\ entries (Map.delete (users s) "user_1") = [("user_2", "bob")]
  /\ ChatMessage.content (userListAt env0 3 [("user_2", bob)])
     = ("[{" ++ quoted "id" ++ ":" ++ quoted "user_2" ++ ","
             ++ quoted "username" ++ ":" ++ quoted "bob" ++ "}]")%string.
Proof.
  intros s.
  pose proof (C7_disconnect_fanout bobJoined env0 "user_1") as Hleave.
  cbv zeta in Hleave. destruct Hleave as [Hjoined _].
  destruct (Hjoined alice eq_refl) as (Hrun & _ & _ & _ & _ & _ & Hentries & _).
  split; [reflexivity|]. split.
  - unfold outbox, s. rewrite Hrun. reflexivity.
  - split; [|reflexivity]. unfold s. rewrite Hentries. reflexivity.
Defined.

Lemma C9_witness :
  let s := runAll aliceJoined newChatServer in
  run (onConnection 3) env0 s
  = (Normal "user_3", withNextUserId s 4%Z,
     [(3, systemMessageAt env0 0 user_joined "Welcome to the chat!");
      (3, userListAt env0 3 [("user_1", alice)])])
  /\ assignedIds aliceJoined newChatServer = ["user_1"; "user_2"]
  /\ ~ In "user_3" (assignedIds aliceJoined newChatServer)
  /\ ChatMessage.content (userListAt env0 3 [("user_1", alice)])
     = ("[{" ++ quoted "id" ++ ":" ++ quoted "user_1" ++ ","
             ++ quoted "username" ++ ":" ++ quoted "alice" ++ "}]")%string.
Proof.
  intros s.
  pose proof (C9_connection_accept aliceJoined env0 3) as Haccept.
  cbv zeta in Haccept. destruct Haccept as (Hrun & _ & Hfresh & _).
  split; [unfold s; rewrite Hrun; reflexivity|].
  split; [reflexivity|]. split; [|reflexivity].
  apply (Hfresh eq_refl).
Defined.

Lemma C10_witness :
  run (handleUserJoin 1 "user_1" (JS.Str "Alice ")) env0
    (runAll aliceJoined newChatServer)
  = (Normal tt, runAll aliceJoined newChatServer,
     [(1, errorNoticeAt env0 0 "Username already taken")]).
Proof.
  apply (C10_rejoin_own_name_rejected aliceJoined env0 1 "user_1" "Alice " alice).
  - reflexivity.
  - reflexivity.
Defined.

(* ================================================================= *)
(** ** Further properties of the server *)

(* ----------------------------------------------------------------- *)
(** *** Every inbound frame, case by case *)

Section Frames.
Variable env : Env.

Lemma onMessage_not_json ws userId w :
  onMessage ws userId None env w
  = (Normal tt,
     emit w (transmit env [(ws, errorNoticeAt env (ticks w) "Invalid message format")]) 3).
Proof.
  unfold onMessage, tryCatch, jsonParse. js_step. apply sendError_run.
Qed.

Lemma onMessage_no_type ws userId msg e w :
  JS.getProp msg "type" = inr e ->
  onMessage ws userId (Some msg) env w
  = (Normal tt,
     emit w (transmit env [(ws, errorNoticeAt env (ticks w) "Invalid message format")]) 3).
Proof.
  intros Htype. unfold onMessage, tryCatch, jsonParse, handleMessage. js_step.
  rewrite Htype. js_step. apply sendError_run.
Qed.

Lemma onMessage_unknown ws userId msg ty w :
  JS.getProp msg "type" = inl ty ->
  ty <> JS.Str "join" -> ty <> JS.Str "message" ->
  onMessage ws userId (Some msg) env w
  = (Normal tt,
     emit w (transmit env [(ws, errorNoticeAt env (ticks w) "Unknown message type")]) 3).
Proof.
  intros Htype Hjoin Hmsg. unfold onMessage, tryCatch, jsonParse, handleMessage. js_step.
  rewrite Htype. js_step.
  destruct ty as [| |b|n|k|items|props]; try (now rewrite sendError_run).
  destruct (String.eqb_spec k "join") as [->|_]; [now destruct Hjoin|].
  destruct (String.eqb_spec k "message") as [->|_]; [now destruct Hmsg|].
  now rewrite sendError_run.
Qed.

Lemma getProp_defined msg k v k' :
  JS.getProp msg k = inl v -> exists v', JS.getProp msg k' = inl v'.
Proof.
  destruct msg; simpl; intros H; try discriminate; eauto.
Qed.

Lemma onMessage_join_value ws userId msg v w :
  JS.getProp msg "type" = inl (JS.Str "join") ->
  JS.getProp msg "username" = inl v ->
  onMessage ws userId (Some msg) env w
  = tryCatch (handleUserJoin ws userId v)
      (fun _ => sendError ws "Invalid message format") env w.
Proof.
  intros Htype Hfield. unfold onMessage, tryCatch, jsonParse, handleMessage.
  js_step. rewrite Htype. js_step.
  change ("join" =? "join")%string with true. cbv iota.
  rewrite Hfield. js_step. reflexivity.
Qed.

Lemma handleUserJoin_falsy ws userId v w :
  JS.truthy v = false ->
  handleUserJoin ws userId v env w
  = (Normal tt,
     emit w (transmit env [(ws, errorNoticeAt env (ticks w) "Username is required")]) 3).
Proof.
  intros Hfalsy. unfold handleUserJoin, isBlank. rewrite Hfalsy. js_step.
  cbn [negb]. js_step. apply sendError_run.
Qed.

Lemma handleUserJoin_not_a_string ws userId v w :
  JS.truthy v = true -> isString v = false ->
  handleUserJoin ws userId v env w = (Throw JS.TypeError, w).
Proof.
  intros Htruthy Hstr. unfold handleUserJoin, isBlank. rewrite Htruthy. cbn [negb].
  destruct v; try discriminate; reflexivity.
Qed.

Lemma handleChatMessage_not_a_string userId v user w :
  Map.get (users (server w)) userId = Some user ->
  JS.truthy v = true -> isString v = false ->
  handleChatMessage userId v env w = (Throw JS.TypeError, w).
Proof.
  intros Hget Htruthy Hstr. unfold handleChatMessage. js_step. rewrite Hget.
  unfold isBlank. rewrite Htruthy. cbn [negb].
  destruct v; try discriminate; reflexivity.
Qed.

Lemma isString_Str v : isString v = true -> exists t, v = JS.Str t.
Proof. destruct v; try discriminate. eauto. Qed.

End Frames.

Lemma run_emit {A} (m : M A) env s r out k s' :
  m env (start s) = (r, setServer (emit (start s) out k) s') ->
  run m env s = (r, s', out).
Proof.
  intros H. now rewrite (run_start _ _ _ _ _ H).
Qed.

Lemma run_error (m : M unit) env s ws error :
  m env (start s)
  = (Normal tt, emit (start s) (transmit env [(ws, errorNoticeAt env 0 error)]) 3) ->
  Rejected env s ws (run m env s).
Proof.
  intros H. right. exists error. now rewrite (run_start _ _ _ _ _ H).
Qed.

(** The three ways a frame is handled. *)
Lemma onMessage_cases env s ws userId data :
  Rejected env s ws (run (onMessage ws userId data) env s)
  \/ (exists msg name,
        data = Some msg
        /\ isRequest msg "join" "username" name
        /\ JS.trim name <> EmptyString
        /\ ~ In (JS.toLowerCase (JS.trim name)) (displayNames s)
        /\ run (onMessage ws userId data) env s
           = (Normal tt, withUsers s (joined s ws userId (JS.trim name)),
              transmit env
                (toAll (joined s ws userId (JS.trim name))
                   (systemMessageAt env 0 user_joined
                      (JS.trim name ++ " joined the chat")%string)
                 ++ rosterToAll env 3 (joined s ws userId (JS.trim name))
                 ++ historyTo ws (messageHistory s))))
  \/ (exists msg text user,
        data = Some msg
        /\ isRequest msg "message" "content" text
        /\ Map.get (users s) userId = Some user
        /\ JS.trim text <> EmptyString
        /\ run (onMessage ws userId data) env s
           = (Normal tt,
              withHistory s
                (pushBounded (messageHistory s) (chatMessageAt env 0 user (JS.trim text))),
              transmit env (toAll (users s) (chatMessageAt env 0 user (JS.trim text))))).
Proof.
  destruct data as [msg|].
  2:{ left. apply (run_error _ env s ws "Invalid message format").
      apply onMessage_not_json. }
  destruct (JS.getProp msg "type") as [ty|e] eqn:Htype.
  2:{ left. apply (run_error _ env s ws "Invalid message format").
      now apply (onMessage_no_type env ws userId msg e). }
  assert ({ty = JS.Str "join"} + {ty = JS.Str "message"}
          + {ty <> JS.Str "join" /\ ty <> JS.Str "message"}) as [[->| ->]|[Hj Hm]].
  { destruct ty as [| |b|n|k|items|props]; try (right; split; discriminate).
    destruct (String.string_dec k "join") as [->|Hj]; [left; now left|].
    destruct (String.string_dec k "message") as [->|Hm]; [left; now right|].
    right. split; intros [= ->]; tauto. }
  - (* join *)
    destruct (getProp_defined msg "type" _ "username" Htype) as (v & Hfield).
    destruct (JS.truthy v) eqn:Htruthy.
    + destruct (isString v) eqn:Hstr.
      * apply isString_Str in Hstr. destruct Hstr as (name & ->).
        assert (isRequest msg "join" "username" name) as Hreq by now split.
        rewrite (run_ext env _ _ s (fun w => onMessage_join env ws userId msg name w Hreq)).
        destruct (string_dec_empty (JS.trim name)) as [Hblank|Hname].
        { left. right. exists "Username is required".
          now apply run_handleUserJoin_blank. }
        destruct (in_dec String.string_dec (JS.toLowerCase (JS.trim name)) (displayNames s))
          as [Htaken|Hfree].
        { left. right. exists "Username already taken".
          now apply run_handleUserJoin_taken. }
        right; left. exists msg, name. repeat split; try assumption.
        now apply run_handleUserJoin_accepted.
      * left. apply (run_error _ env s ws "Invalid message format").
        rewrite (onMessage_join_value env ws userId msg v) by assumption.
        unfold tryCatch. rewrite handleUserJoin_not_a_string by assumption.
        apply sendError_run.
    + left. apply (run_error _ env s ws "Username is required").
      rewrite (onMessage_join_value env ws userId msg v) by assumption.
      unfold tryCatch. rewrite handleUserJoin_falsy by assumption. reflexivity.
  - (* message *)
    destruct (getProp_defined msg "type" _ "content" Htype) as (v & Hfield).
    destruct (Map.get (users s) userId) as [user|] eqn:Hget.
    2:{ left. left. apply (run_start _ env s (Normal tt) (start s)).
        rewrite (onMessage_chat env ws userId msg v) by assumption.
        unfold tryCatch. now rewrite handleChatMessage_not_joined. }
    destruct (JS.truthy v) eqn:Htruthy.
    2:{ left. left. apply (run_start _ env s (Normal tt) (start s)).
        rewrite (onMessage_chat env ws userId msg v) by assumption.
        unfold tryCatch. now rewrite handleChatMessage_falsy. }
    destruct (isString v) eqn:Hstr.
    + apply isString_Str in Hstr. destruct Hstr as (text & ->).
      assert (isRequest msg "message" "content" text) as Hreq by now split.
      rewrite (run_ext env _ _ s (fun w => onMessage_chat_Str env ws userId msg text w Hreq)).
      rewrite run_handleChatMessage. unfold Spec.recordMessage. rewrite Hget.
      destruct (String.eqb_spec (JS.trim text) EmptyString) as [Hblank|Htext].
      * left. now left.
      * right; right. exists msg, text, user. now repeat split.
    + left. apply (run_error _ env s ws "Invalid message format").
      rewrite (onMessage_chat env ws userId msg v) by assumption.
      unfold tryCatch.
      rewrite (handleChatMessage_not_a_string env userId v user) by assumption.
      apply sendError_run.
  - left. apply (run_error _ env s ws "Unknown message type").
    now apply (onMessage_unknown env ws userId msg ty).
Qed.

(* ----------------------------------------------------------------- *)
(** *** Protocol errors *)

(** X1. A frame that is not JSON, or whose JSON value is [null], changes
    nothing and is answered with the notice [Error: Invalid message
    format], sent to the sender's socket alone. *)
Theorem unparseable_frame_reply
  (env : Env) (s : ChatServer) (ws : WebSocket) (userId : string) :
  let reply :=
    (Normal tt, s, transmit env [(ws, errorNoticeAt env 0 "Invalid message format")]) in
  run (onMessage ws userId None) env s = reply
  /\ run (onMessage ws userId (Some JS.Null)) env s = reply.
Proof.
  intros reply. split.
  - apply (run_start _ env s (Normal tt)
             (emit (start s)
                (transmit env [(ws, errorNoticeAt env 0 "Invalid message format")]) 3)).
    apply onMessage_not_json.
  - apply (run_start _ env s (Normal tt)
             (emit (start s)
                (transmit env [(ws, errorNoticeAt env 0 "Invalid message format")]) 3)).
    now apply (onMessage_no_type env ws userId JS.Null JS.TypeError).
Qed.

(** X2. A JSON frame whose [type] is neither the string [join] nor the
    string [message] (missing, a number, another word) changes nothing
    and is answered with [Error: Unknown message type] to the sender
    alone. *)
Theorem unknown_type_reply
  (env : Env) (s : ChatServer) (ws : WebSocket) (userId : string)
  (msg ty : JS.Value) :
  JS.getProp msg "type" = inl ty ->
  ty <> JS.Str "join" ->
  ty <> JS.Str "message" ->
  run (onMessage ws userId (Some msg)) env s
  = (Normal tt, s, transmit env [(ws, errorNoticeAt env 0 "Unknown message type")]).
Proof.
  intros Htype Hjoin Hmsg.
  apply (run_start _ env s (Normal tt)
           (emit (start s)
              (transmit env [(ws, errorNoticeAt env 0 "Unknown message type")]) 3)).
  now apply (onMessage_unknown env ws userId msg ty).
Qed.

(** X3. A [join] frame whose [username] is not a string is refused and
    the server is unchanged: a missing or falsy one ([undefined],
    [null], [false], [0]) with [Error: Username is required], any other
    (a number, an array, an object) with [Error: Invalid message
    format], because [username.trim] is then not a function and the
    callback catches the exception. *)
Theorem join_without_string_username
  (env : Env) (s : ChatServer) (ws : WebSocket) (userId : string)
  (msg username : JS.Value) :
  JS.getProp msg "type" = inl (JS.Str "join") ->
  JS.getProp msg "username" = inl username ->
  isString username = false ->
  let error :=
    if JS.truthy username then "Invalid message format" else "Username is required" in
  run (onMessage ws userId (Some msg)) env s
  = (Normal tt, s, transmit env [(ws, errorNoticeAt env 0 error)]).
Proof.
  intros Htype Hfield Hstr error. unfold error.
  destruct (JS.truthy username) eqn:Htruthy.
  - apply (run_start _ env s (Normal tt)
             (emit (start s)
                (transmit env [(ws, errorNoticeAt env 0 "Invalid message format")]) 3)).
    rewrite (onMessage_join_value env ws userId msg username) by assumption.
    unfold tryCatch. rewrite handleUserJoin_not_a_string by assumption.
    apply sendError_run.
  - apply (run_start _ env s (Normal tt)
             (emit (start s)
                (transmit env [(ws, errorNoticeAt env 0 "Username is required")]) 3)).
    rewrite (onMessage_join_value env ws userId msg username) by assumption.
    unfold tryCatch. now rewrite handleUserJoin_falsy.
Qed.

(** X4. A [message] frame of a joined session whose [content] is not a
    string never reaches the room: a missing or falsy content is
    dropped in silence, any other is answered with [Error: Invalid
    message format] to the sender (the exception of [content.trim] is
    caught); the server and the history are unchanged either way. *)
Theorem chat_without_string_content
  (env : Env) (s : ChatServer) (ws : WebSocket) (userId : string)
  (msg content : JS.Value) (user : User.t) :
  JS.getProp msg "type" = inl (JS.Str "message") ->
  JS.getProp msg "content" = inl content ->
  isString content = false ->
  Map.get (users s) userId = Some user ->
  run (onMessage ws userId (Some msg)) env s
  = (Normal tt, s,
     if JS.truthy content
     then transmit env [(ws, errorNoticeAt env 0 "Invalid message format")]
     else []).
Proof.
  intros Htype Hfield Hstr Hget.
  destruct (JS.truthy content) eqn:Htruthy.
  - apply (run_start _ env s (Normal tt)
             (emit (start s)
                (transmit env [(ws, errorNoticeAt env 0 "Invalid message format")]) 3)).
    rewrite (onMessage_chat env ws userId msg content) by assumption.
    unfold tryCatch.
    rewrite (handleChatMessage_not_a_string env userId content user) by assumption.
    apply sendError_run.
  - apply (run_start _ env s (Normal tt) (start s)).
    rewrite (onMessage_chat env ws userId msg content) by assumption.
    unfold tryCatch. now rewrite handleChatMessage_falsy.
Qed.

Lemma Rejected_contained env s ws r :
  Rejected env s ws r ->
  fst (fst r) = Normal tt
  /\ snd (fst r) = s
  /\ length (snd r) <= 1
  /\ Forall (isNoticeTo ws) (snd r).
Proof.
  intros [->|(error & ->)]; cbn [fst snd].
  - repeat split; [simpl; lia | constructor].
  - repeat split.
    + unfold transmit; simpl. destruct (isOpen (readyState env ws)); simpl; lia.
    + apply Forall_forall. intros p Hp. apply transmit_In in Hp.
      destruct Hp as [<-|[]]. now repeat split.
Qed.

(** X5. Whatever the frame, the callback handles it in one of three
    ways: it is an accepted join, it is an accepted chat message, or it
    changes nothing and sends at most one message, a notice of the
    server to the sender's own socket. So a frame that is not accepted
    never changes the server and never reaches another session. *)
Theorem unaccepted_frame_is_contained
  (env : Env) (s : ChatServer) (ws : WebSocket) (userId : string)
  (data : option JS.Value) :
  let s' := after (onMessage ws userId data) env s in
  let out := outbox (onMessage ws userId data) env s in
  AcceptedJoin s ws userId data s'
  \/ AcceptedChat env s userId data s'
  \/ (s' = s /\ length out <= 1 /\ Forall (isNoticeTo ws) out).
Proof.
  intros s' out. unfold s', out, after, outbox.
  destruct (onMessage_cases env s ws userId data)
    as [Hrej|[(msg & name & Hd & Hreq & Hname & Hfree & Hrun)
             |(msg & text & user & Hd & Hreq & Hget & Htext & Hrun)]].
  - right; right. apply Rejected_contained in Hrej. tauto.
  - left. rewrite Hrun. exists msg, name.
    repeat (split; [assumption|]). reflexivity.
  - right; left. rewrite Hrun. exists msg, text, user.
    repeat (split; [assumption|]). reflexivity.
Qed.

Lemma dispatch_run env s ev :
  exists s' out, run (dispatch ev) env s = (Normal tt, s', transmit env out).
Proof.
  destruct ev as [ws|ws userId data|userId|userId]; cbn [dispatch].
  - exists (withNextUserId s (postIncrement (nextUserId s))),
      [(ws, systemMessageAt env 0 user_joined "Welcome to the chat!");
       (ws, userListAt env 3 (users s))].
    unfold run. js_step. rewrite onConnection_run. reflexivity.
  - destruct (onMessage_cases env s ws userId data)
      as [[Hrun|(error & Hrun)]|[(msg & name & _ & _ & _ & _ & Hrun)
                                 |(msg & text & user & _ & _ & _ & _ & Hrun)]];
      rewrite Hrun.
    + now exists s, [].
    + now eexists _, _.
    + now eexists _, _.
    + now eexists _, _.
  - unfold onClose. rewrite run_handleUserDisconnect.
    destruct (Map.get (users s) userId); [now eexists _, _ | now exists s, []].
  - unfold onError. rewrite run_handleUserDisconnect.
    destruct (Map.get (users s) userId); [now eexists _, _ | now exists s, []].
Qed.

(** X6. No callback lets an exception escape: every event, whatever the
    frame it carries, is handled to a normal completion. *)
Theorem callbacks_never_throw (env : Env) (s : ChatServer) (ev : Event) :
  completion (dispatch ev) env s = Normal tt.
Proof.
  unfold completion. destruct (dispatch_run env s ev) as (s' & out & Hrun).
  now rewrite Hrun.
Qed.

(** X7. The server never writes to a socket that is not open: in every
    callback run, every [ws.send] is on a socket whose [readyState] is
    [OPEN]. *)
Theorem sends_only_on_open_sockets (env : Env) (s : ChatServer) (ev : Event) :
  Forall (fun p => readyState env (fst p) = OPEN) (outbox (dispatch ev) env s).
Proof.
  unfold outbox. destruct (dispatch_run env s ev) as (s' & out & Hrun).
  rewrite Hrun. cbn [snd]. apply Forall_forall. intros p Hp.
  unfold transmit in Hp. apply filter_In in Hp. destruct Hp as [_ Hopen].
  now destruct (readyState env (fst p)).
Qed.

(* ----------------------------------------------------------------- *)
(** *** What reachable servers hold *)

Lemma trimStart_head s :
  JS.trimStart s = EmptyString
  \/ exists c t, JS.trimStart s = String c t /\ JS.isWhiteSpace c = false.
Proof.
  induction s as [|c s IH]; simpl; [now left|].
  destruct (JS.isWhiteSpace c) eqn:Hc; [exact IH|].
  right. now exists c, s.
Qed.

Lemma trimEnd_cons c t :
  JS.isWhiteSpace c = false -> JS.trimEnd (String c t) = String c (JS.trimEnd t).
Proof.
  intros Hc. simpl. rewrite Hc. now destruct (JS.trimEnd t).
Qed.

Lemma trimEnd_idempotent t : JS.trimEnd (JS.trimEnd t) = JS.trimEnd t.
Proof.
  induction t as [|c t IH]; [reflexivity|].
  simpl. destruct (JS.trimEnd t) as [|c' r] eqn:Hr.
  - destruct (JS.isWhiteSpace c) eqn:Hc; [reflexivity|]. simpl. now rewrite Hc.
  - change (JS.trimEnd (String c (String c' r)))
      with (match JS.trimEnd (String c' r) with
            | EmptyString =>
                if JS.isWhiteSpace c then EmptyString else String c EmptyString
            | String _ _ as u => String c u
            end).
    now rewrite IH.
Qed.

Lemma trim_idempotent s : JS.trim (JS.trim s) = JS.trim s.
Proof.
  unfold JS.trim.
  destruct (trimStart_head s) as [->|(c & t & -> & Hc)]; [reflexivity|].
  rewrite (trimEnd_cons c t Hc). simpl JS.trimStart. rewrite Hc.
  rewrite (trimEnd_cons c _ Hc). now rewrite trimEnd_idempotent.
Qed.

Lemma trimmedNonEmpty_trim t : JS.trim t <> EmptyString -> trimmedNonEmpty (JS.trim t).
Proof. intros H. split; [assumption | apply trim_idempotent]. Qed.

Lemma Tidy_new : Tidy newChatServer.
Proof. split; constructor. Qed.

Lemma Tidy_transition env s ev s' :
  Transition env s ev s' -> Tidy s -> Tidy s'.
Proof.
  intros Ht [Hn Hh].
  destruct Ht as [ev|ws|ws userId msg name _ Hname _
                 |ws userId msg text user _ Hget Htext|ev userId user _ _].
  - now split.
  - now split.
  - split; [|assumption].
    unfold withUsers, joined; simpl. apply Forall_forall. intros x Hx.
    apply set_values_In in Hx. destruct Hx as [Hx| ->].
    + revert x Hx. now apply Forall_forall.
    + now apply trimmedNonEmpty_trim.
  - split; [assumption|].
    simpl. apply Forall_forall. intros x Hx.
    apply pushBounded_In in Hx. destruct Hx as [Hx| ->].
    + revert x Hx. now apply Forall_forall.
    + simpl. split; [now apply trimmedNonEmpty_trim|]. split; [|now eexists].
      apply get_In_values in Hget. rewrite Forall_forall in Hn. now apply Hn.
  - split; [|assumption].
    unfold withUsers; simpl. apply Forall_forall. intros x Hx.
    apply delete_values_In in Hx. revert x Hx. now apply Forall_forall.
Qed.

Lemma Tidy_runAll trace : forall s, Tidy s -> Tidy (runAll trace s).
Proof.
  induction trace as [|[env ev] trace IH]; intros s Hs; simpl; [assumption|].
  apply IH. apply (Tidy_transition env s ev); [apply step_transition | assumption].
Qed.

(** X8. In every server reached from the start by any sequence of
    events, [users] has one entry per key, every entry's [id] is its
    key, and every display name is non-empty and carries no white
    space at either end. *)
Theorem users_well_formed (trace : list (Env * Event)) :
  let s := runAll trace newChatServer in
  NoDup (Map.keys (users s))
  /\ Forall
       (fun e => User.id (snd e) = fst e /\ trimmedNonEmpty (User.username (snd e)))
       (users s).
Proof.
  intros s.
  assert (Invariant s) as Hinv by apply Invariant_runAll, Invariant_new.
  assert (Tidy s) as Htidy by apply Tidy_runAll, Tidy_new.
  split; [apply (keys_unique s Hinv)|].
  pose proof (ids_are_keys s Hinv) as Hids. pose proof (tidy_names s Htidy) as Hnames.
  rewrite Forall_forall in *. intros e He. split; [now apply Hids|].
  apply Hnames. unfold Map.values. now apply in_map.
Qed.

Lemma sentBy_incl ids ids' msg :
  incl ids ids' -> sentBy ids msg -> sentBy ids' msg.
Proof.
  intros Hincl (env & user & text & Hmsg & Hin).
  exists env, user, text. split; [assumption | now apply Hincl].
Qed.

Lemma sentBy_step env s ev known :
  Invariant s ->
  match ev with
  | Connection _ => True
  | Message _ userId _ | Close userId | Error userId => In userId known
  end ->
  Forall (sentBy known) (messageHistory s) ->
  Forall (sentBy known) (messageHistory (step s (env, ev))).
Proof.
  intros Hinv Hev Hh.
  destruct (step_transition env ev s)
    as [ev|ws|ws userId msg name _ _ _|ws userId msg text user _ Hget _|ev userId user _ _];
    try assumption.
  cbn [messageHistory withHistory]. apply Forall_forall. intros x Hx.
  apply pushBounded_In in Hx. destruct Hx as [Hx| ->].
  - rewrite Forall_forall in Hh. now apply Hh.
  - exists env, user, (JS.trim text). split; [reflexivity|].
    pose proof (ids_are_keys s Hinv) as Hids. rewrite Forall_forall in Hids.
    specialize (Hids _ (get_In_entry _ _ _ Hget)). simpl in Hids. now rewrite Hids.
Qed.

Lemma sentBy_history trace :
  forall known s,
    Invariant s ->
    wiredFrom known trace s ->
    Forall (sentBy known) (messageHistory s) ->
    Forall (sentBy (known ++ assignedIds trace s)) (messageHistory (runAll trace s)).
Proof.
  induction trace as [|[env ev] trace IH]; intros known s Hinv Hwired Hh.
  - simpl. now rewrite app_nil_r.
  - destruct Hwired as [Hev Hrest].
    assert (assignedIds ((env, ev) :: trace) s
            = assignedIds [(env, ev)] s ++ assignedIds trace (step s (env, ev))) as ->.
    { cbn [assignedIds]. now rewrite app_nil_r. }
    rewrite app_assoc. cbn [runAll fold_left]. fold (runAll trace (step s (env, ev))).
    apply IH.
    + apply (Invariant_transition env s ev); [apply step_transition | assumption].
    + exact Hrest.
    + apply Forall_impl with (P := sentBy known).
      * intros msg. apply sentBy_incl. now apply incl_appl.
      * now apply sentBy_step.
Qed.

Lemma userIdOf_not_system k : userIdOf k <> "system".
Proof. unfold userIdOf. simpl. discriminate. Qed.

(** X9. In every server reached from the start the history holds at
    most 100 entries, all of type [message], each with a content and a
    sender name that are non-empty and trimmed, and with an id. When
    every frame, [close] and [error] carries an id that the acceptor
    has assigned before (the callbacks are closures over it), every
    entry is moreover a chat message as [handleChatMessage] builds it,
    its id is the id of a session that the acceptor has set up, of the
    form [user_<k>] with [k] from 1 to 2^53, and it is none of the
    server's own notices (join, leave, roster, welcome or error), which
    all carry the id [system]. *)
Theorem history_well_formed (trace : list (Env * Event)) :
  let h := messageHistory (runAll trace newChatServer) in
  length h <= 100
  /\ Forall
       (fun msg =>
          ChatMessage.type msg = message
          /\ trimmedNonEmpty (ChatMessage.content msg)
          /\ trimmedNonEmpty (ChatMessage.username msg)
          /\ exists id, ChatMessage.userId msg = Some id)
       h
  /\ (wired trace ->
      Forall
        (fun msg =>
           (exists env user k,
              msg = chatMessageAt env 0 user (ChatMessage.content msg)
              /\ ChatMessage.userId msg = Some (userIdOf k)
              /\ (1 <= k <= 9007199254740992)%Z
              /\ In (userIdOf k) (assignedIds trace newChatServer))
           /\ ChatMessage.userId msg <> Some "system"
           /\ (forall env k type text, msg <> systemMessageAt env k type text)
           /\ (forall env k error, msg <> errorNoticeAt env k error))
        h).
Proof.
  intros h. unfold h.
  assert (Invariant (runAll trace newChatServer)) as Hinv
    by apply Invariant_runAll, Invariant_new.
  assert (Tidy (runAll trace newChatServer)) as Htidy by apply Tidy_runAll, Tidy_new.
  split; [apply (history_bounded _ Hinv)|].
  pose proof (history_messages _ Hinv) as Hm. pose proof (tidy_history _ Htidy) as Ht.
  split.
  { rewrite Forall_forall in *. intros msg Hmsg. split; [now apply Hm | now apply Ht]. }
  intros Hwired.
  pose proof (sentBy_history trace [] newChatServer Invariant_new Hwired
                (Forall_nil _)) as Hsent.
  cbn [app] in Hsent. rewrite Forall_forall in *. intros msg Hmsg.
  destruct (Hsent msg Hmsg) as (env & user & text & Heq & Hin).
  destruct (assignedIds_In trace _ Hin) as (k & Hk & Hid).
  assert (ChatMessage.userId msg = Some (userIdOf (counterAt 1 k))) as Huid
    by (rewrite Heq; simpl; now rewrite Hid).
  assert (ChatMessage.userId msg <> Some "system") as Hsys.
  { rewrite Huid. intros Habs. apply (userIdOf_not_system (counterAt 1 k)).
    congruence. }
  split.
  { exists env, user, (counterAt 1 k).
    split; [now rewrite Heq at 1 2|]. split; [exact Huid|].
    split; [unfold counterAt; lia|]. now rewrite <- Hid. }
  split; [exact Hsys|]. split.
  - intros env' k' type' text' Habs. apply Hsys. now rewrite Habs.
  - intros env' k' error Habs. apply Hsys. now rewrite Habs.
Qed.

(* ----------------------------------------------------------------- *)
(** *** Membership *)

Lemma delete_set_fresh {V} (m : Map.t V) k v :
  Map.get m k = None -> Map.delete (Map.set m k v) k = m.
Proof.
  unfold Map.delete. induction m as [|[k' v'] m IH]; simpl; intros Hget.
  - now rewrite String.eqb_refl.
  - destruct (k' =? k)%string eqn:Hk; [discriminate|]. simpl. rewrite Hk. simpl.
    now rewrite IH.
Qed.

Lemma delete_absent {V} (m : Map.t V) k :
  Map.get m k = None -> Map.delete m k = m.
Proof.
  unfold Map.delete. induction m as [|[k' v'] m IH]; simpl; intros Hget; [reflexivity|].
  destruct (k' =? k)%string eqn:Hk; [discriminate|]. simpl. now rewrite IH.
Qed.

Lemma set_keys {V} (m : Map.t V) k v :
  Map.keys (Map.set m k v)
  = match Map.get m k with
    | Some _ => Map.keys m
    | None => Map.keys m ++ [k]
    end.
Proof.
  unfold Map.keys. induction m as [|[k' v'] m IH]; simpl; [reflexivity|].
  destruct (k' =? k)%string eqn:Hk; simpl; [reflexivity|].
  rewrite IH. now destruct (Map.get m k).
Qed.

Lemma delete_size {V} (m : Map.t V) k v :
  NoDup (Map.keys m) -> Map.get m k = Some v ->
  S (Map.size (Map.delete m k)) = Map.size m.
Proof.
  unfold Map.size, Map.keys. induction m as [|[k' v'] m IH]; simpl; intros Hnd Hget;
    [discriminate|].
  inversion Hnd as [|? ? Hk' Hm]; subst.
  destruct (k' =? k)%string eqn:Hk; simpl.
  - apply String.eqb_eq in Hk. subst k'. f_equal.
    assert (Map.get m k = None) as Hnone.
    { destruct (Map.get m k) as [x|] eqn:Hx; [|reflexivity].
      destruct Hk'. clear -Hx. induction m as [|[k1 v1] m IH]; simpl in *; [discriminate|].
      destruct (k1 =? k)%string eqn:Hk1.
      - apply String.eqb_eq in Hk1. now left.
      - right. now apply IH. }
    fold (Map.delete m k). now rewrite delete_absent.
  - f_equal. now apply IH.
Qed.

Lemma delete_keys {V} (m : Map.t V) k :
  Map.keys (Map.delete m k) = filter (fun k' => negb (k' =? k)%string) (Map.keys m).
Proof.
  unfold Map.keys, Map.delete. induction m as [|[k' v'] m IH]; simpl; [reflexivity|].
  destruct (k' =? k)%string; simpl; now rewrite IH.
Qed.


(** X10. Joining and leaving undo each other: when a session that is
    not joined has a join accepted and then disconnects, the server is
    again exactly what it was before the join (users, their order,
    history and counter). *)
Theorem join_then_leave_restores
  (env1 env2 : Env) (s : ChatServer) (ws : WebSocket) (userId name : string) :
  Map.get (users s) userId = None ->
  JS.trim name <> EmptyString ->
  ~ In (JS.toLowerCase (JS.trim name)) (displayNames s) ->
  after (onClose userId) env2 (after (handleUserJoin ws userId (JS.Str name)) env1 s) = s.
Proof.
  intros Hget Hname Hfree. unfold after at 2.
  rewrite run_handleUserJoin_accepted by assumption. cbn [fst snd].
  unfold after, onClose. rewrite run_handleUserDisconnect.
  cbn [users withUsers]. unfold joined. rewrite get_set_same. cbn [fst snd].
  unfold withUsers; simpl. rewrite delete_set_fresh by assumption. now destruct s.
Qed.

(** X11. The count that [getConnectedUsersCount] reports, in a
    reachable server: an accepted join adds one when the session was
    not joined and nothing when it re-joins; the disconnect of a joined
    session takes one away; and [GET /chat/users] reports that count
    (0 while no chat server exists). *)
Theorem connected_users_count
  (trace : list (Env * Event)) (env : Env) (ws : WebSocket) (userId name : string) :
  let s := runAll trace newChatServer in
  (JS.trim name <> EmptyString ->
   ~ In (JS.toLowerCase (JS.trim name)) (displayNames s) ->
   getConnectedUsersCount (after (handleUserJoin ws userId (JS.Str name)) env s)
   = getConnectedUsersCount s
     + match Map.get (users s) userId with
       | Some _ => 0
       | None => 1
       end)
  /\ (forall user,
        Map.get (users s) userId = Some user ->
        S (getConnectedUsersCount (after (onClose userId) env s))
        = getConnectedUsersCount s)
  /\ connectedUsers (Some s) = getConnectedUsersCount s
  /\ connectedUsers None = 0.
Proof.
  intros s. split; [|split; [|split]].
  - intros Hname Hfree. unfold after.
    rewrite run_handleUserJoin_accepted by assumption. cbn [fst snd].
    unfold getConnectedUsersCount, Map.size. cbn [users withUsers]. unfold joined.
    rewrite <- !(length_map fst).
    fold (Map.keys (Map.set (users s) userId
                      {| User.id := userId; User.username := JS.trim name; User.ws := ws |})).
    rewrite set_keys. fold (Map.keys (users s)).
    destruct (Map.get (users s) userId); [lia|].
    rewrite length_app. simpl. lia.
  - intros user Hget. unfold after, onClose. rewrite run_handleUserDisconnect, Hget.
    cbn [fst snd]. unfold getConnectedUsersCount. cbn [users withUsers].
    apply (delete_size _ _ user); [|assumption].
    apply keys_unique. apply Invariant_runAll, Invariant_new.
  - unfold connectedUsers. now destruct (getConnectedUsersCount s).
  - reflexivity.
Qed.

(** X12. A join never reorders the roster: a session that joins for the
    first time goes to the end, a session that re-joins under a new
    name keeps its place, and the entry of every other session is left
    as it was. *)
Theorem join_keeps_roster_order
  (env : Env) (s : ChatServer) (ws : WebSocket) (userId name : string) :
  JS.trim name <> EmptyString ->
  ~ In (JS.toLowerCase (JS.trim name)) (displayNames s) ->
  let s' := after (handleUserJoin ws userId (JS.Str name)) env s in
  Map.keys (users s')
  = match Map.get (users s) userId with
    | Some _ => Map.keys (users s)
    | None => Map.keys (users s) ++ [userId]
    end
  /\ (forall other, other <> userId -> Map.get (users s') other = Map.get (users s) other)
  /\ messageHistory s' = messageHistory s
  /\ nextUserId s' = nextUserId s.
Proof.
  intros Hname Hfree s'. unfold s', after.
  rewrite run_handleUserJoin_accepted by assumption. cbn [fst snd].
  cbn [users withUsers messageHistory nextUserId]. unfold joined.
  split; [apply set_keys|]. split; [|now split].
  intros other Hne. now apply get_set_other.
Qed.

(** X13. A disconnect touches one session only: [users] afterwards is
    [users] before without the entry of that id (the others keep their
    entries and their order), and the history and the counter are as
    they were; for an id that is not joined nothing changes at all. *)
Theorem leave_removes_only_that_session
  (env : Env) (s : ChatServer) (userId : string) :
  let s' := after (onClose userId) env s in
  users s' = Map.delete (users s) userId
  /\ Map.keys (users s') = filter (fun k => negb (k =? userId)%string) (Map.keys (users s))
  /\ (forall other, other <> userId -> Map.get (users s') other = Map.get (users s) other)
  /\ messageHistory s' = messageHistory s
  /\ nextUserId s' = nextUserId s
  /\ (Map.get (users s) userId = None -> s' = s).
Proof.
  intros s'.
  assert (users s' = Map.delete (users s) userId
          /\ messageHistory s' = messageHistory s
          /\ nextUserId s' = nextUserId s
          /\ (Map.get (users s) userId = None -> s' = s)) as (Hu & Hh & Hn & Hs).
  { unfold s', after, onClose. rewrite run_handleUserDisconnect.
    destruct (Map.get (users s) userId) as [user|] eqn:Hget; cbn [fst snd].
    - repeat split. discriminate.
    - repeat split. now rewrite delete_absent. }
  split; [exact Hu|]. split; [|split; [|repeat split; assumption]].
  - rewrite Hu. apply delete_keys.
  - intros other Hne. rewrite Hu. now apply get_delete_other.
Qed.

(* ----------------------------------------------------------------- *)
(** *** What an event leaves alone *)

Lemma step_message_frame env s ws userId data :
  let s' := step s (env, Message ws userId data) in
  nextUserId s' = nextUserId s
  /\ (users s' = users s \/ messageHistory s' = messageHistory s).
Proof.
  intros s'. unfold s'. remember (Message ws userId data) as ev eqn:Hev.
  destruct (step_transition env ev s); try discriminate; simpl; auto.
Qed.

Lemma step_close_frame env s ev userId :
  ev = Close userId \/ ev = Error userId ->
  let s' := step s (env, ev) in
  nextUserId s' = nextUserId s /\ messageHistory s' = messageHistory s.
Proof.
  intros Hev s'. unfold s'.
  destruct (step_transition env ev s); simpl; auto;
    destruct Hev; discriminate.
Qed.

(** X14. An event changes at most one field of the server: a connection
    only the counter, which it raises by one while it is below 2^53 and
    leaves as it is at 2^53, where a double cannot count further; a
    [close] or an [error] never the history or the counter; a frame
    never the counter and never both the users and the history. *)
Theorem event_frame (env : Env) (s : ChatServer) (ev : Event) :
  let s' := step s (env, ev) in
  match ev with
  | Connection _ =>
      ((nextUserId s < 9007199254740992)%Z -> nextUserId s' = (nextUserId s + 1)%Z)
      /\ (nextUserId s = 9007199254740992%Z -> nextUserId s' = nextUserId s)
  | _ => nextUserId s' = nextUserId s
  end
  /\ (users s' = users s \/ messageHistory s' = messageHistory s)
  /\ match ev with
     | Connection _ => users s' = users s /\ messageHistory s' = messageHistory s
     | Message _ _ _ => True
     | Close _ | Error _ => messageHistory s' = messageHistory s
     end.
Proof.
  intros s'. unfold s'. destruct ev as [ws|ws userId data|userId|userId].
  - rewrite step_connection. cbn [nextUserId withNextUserId users messageHistory].
    unfold postIncrement. split; [|split; [now left | now split]].
    destruct (Z.ltb_spec (nextUserId s) 9007199254740992); split; intros; lia.
  - destruct (step_message_frame env s ws userId data) as [Hn Hf].
    rewrite Hn. repeat split. assumption.
  - destruct (step_close_frame env s (Close userId) userId (or_introl eq_refl)) as [Hn Hh].
    rewrite Hn. repeat split; [now right | assumption].
  - destruct (step_close_frame env s (Error userId) userId (or_intror eq_refl)) as [Hn Hh].
    rewrite Hn. repeat split; [now right | assumption].
Qed.

Lemma connections_repeat env ws n :
  connections (repeat (env, Connection ws) n) = n.
Proof. induction n as [|n IH]; simpl; [reflexivity | now rewrite IH]. Qed.

(** X15. The acceptor numbers the connections with a counter that is a
    double: along any sequence of events from the start, the
    connection number [k] (from 1) gets the id [user_<min k 2^53>], in
    the order the connections are accepted and whatever else happens
    in between, and the counter stands at one more than their number,
    capped at 2^53. So while fewer than 2^53 connections have been
    accepted the ids are [user_1], [user_2], ..., all different, and
    from the connection number 2^53 on every id is
    [user_9007199254740992]. *)
Theorem connection_ids_in_sequence (trace : list (Env * Event)) :
  let ids := assignedIds trace newChatServer in
  let counter := nextUserId (runAll trace newChatServer) in
  ids
  = map (fun k => userIdOf (Z.min (Z.of_nat k) 9007199254740992))
      (seq 1 (connections trace))
  /\ counter = Z.min (Z.of_nat (S (connections trace))) 9007199254740992
  /\ ((Z.of_nat (connections trace) < 9007199254740992)%Z ->
      ids = map (fun k => userIdOf (Z.of_nat k)) (seq 1 (connections trace))
      /\ counter = Z.of_nat (S (connections trace))
      /\ NoDup ids)
  /\ (forall k,
        (9007199254740992 <= Z.of_nat k)%Z ->
        k <= connections trace ->
        nth_error ids (pred k) = Some "user_9007199254740992").
Proof.
  intros ids counter. unfold ids, counter.
  destruct (assignedIds_counted trace newChatServer) as [Hids Hnext]; [simpl; lia|].
  simpl nextUserId in Hids, Hnext. unfold counterAt in Hids, Hnext.
  assert (assignedIds trace newChatServer
          = map (fun k => userIdOf (Z.min (Z.of_nat k) 9007199254740992))
              (seq 1 (connections trace))) as Hclosed.
  { rewrite Hids, <- seq_shift, map_map. apply map_ext. intros k. do 2 f_equal. lia. }
  split; [exact Hclosed|]. split; [rewrite Hnext; lia|]. split.
  - intros Hbound.
    assert (assignedIds trace newChatServer
            = map (fun k => userIdOf (Z.of_nat k)) (seq 1 (connections trace))) as Hplain.
    { rewrite Hclosed. apply map_ext_in. intros k Hk. apply in_seq in Hk.
      f_equal. lia. }
    split; [exact Hplain|]. split; [rewrite Hnext; lia|].
    rewrite Hplain. apply Injective_map_NoDup; [|apply seq_NoDup].
    intros a b Hab. apply userIdOf_inj in Hab. lia.
  - intros k Hk Hle. rewrite Hclosed.
    assert (pred k < connections trace) as Hlt by lia.
    rewrite nth_error_map, (nth_error_nth' _ 0) by (now rewrite length_seq).
    rewrite seq_nth by assumption. cbn [option_map]. f_equal.
    replace (Z.min (Z.of_nat (1 + pred k)) 9007199254740992) with 9007199254740992%Z by lia.
    reflexivity.
Qed.

(* ----------------------------------------------------------------- *)
(** *** The web client and the server *)

Lemma falsy_false t : Client.falsy t = false -> t <> EmptyString.
Proof. unfold Client.falsy. intros H. now apply String.eqb_neq. Qed.

Lemma joinChat_request ready c c' req :
  Client.joinChat ready c = (c', Some req) ->
  req = joinRequest (JS.trim (Client.username c))
  /\ JS.trim (Client.username c) <> EmptyString
  /\ Client.isConnected c = true
  /\ Client.currentUsername c' = JS.trim (Client.username c).
Proof.
  unfold Client.joinChat.
  destruct (Client.falsy (JS.trim (Client.username c))) eqn:Hf; [discriminate|].
  destruct (Client.isConnected c); simpl; [|discriminate].
  destruct ready; [|discriminate]. intros [= <- <-].
  repeat split. now apply falsy_false.
Qed.

Lemma sendMessage_request ready c c' req :
  Client.sendMessage ready c = (c', Some req) ->
  req = chatRequest (JS.trim (Client.message c))
  /\ JS.trim (Client.message c) <> EmptyString
  /\ Client.currentUsername c <> EmptyString
  /\ Client.message c' = EmptyString.
Proof.
  unfold Client.sendMessage.
  destruct (Client.falsy (JS.trim (Client.message c))) eqn:Hm; [discriminate|].
  destruct (Client.isConnected c); simpl; [|discriminate].
  destruct (Client.falsy (Client.currentUsername c)) eqn:Hc; [discriminate|].
  destruct ready; [|discriminate]. intros [= <- <-].
  repeat split; now apply falsy_false.
Qed.

Lemma isRequest_joinRequest name : isRequest (joinRequest name) "join" "username" name.
Proof. split; reflexivity. Qed.

Lemma isRequest_chatRequest text : isRequest (chatRequest text) "message" "content" text.
Proof. split; reflexivity. Qed.

(** X16. A join request written by the client's [joinChat] is never
    answered with [Username is required]: the name it carries is
    already trimmed and not empty, so the server either binds exactly
    the name the client has put in [currentUsername], or answers
    [Username already taken]. *)
Theorem client_join_is_accepted_or_taken
  (ready : bool) (c c' : Client.State) (req : JS.Value)
  (env : Env) (s : ChatServer) (ws : WebSocket) (userId : string) :
  Client.joinChat ready c = (c', Some req) ->
  trimmedNonEmpty (Client.currentUsername c')
  /\ (In (JS.toLowerCase (Client.currentUsername c')) (displayNames s) ->
      run (onMessage ws userId (Some req)) env s
      = (Normal tt, s, transmit env [(ws, errorNoticeAt env 0 "Username already taken")]))
  /\ (~ In (JS.toLowerCase (Client.currentUsername c')) (displayNames s) ->
      after (onMessage ws userId (Some req)) env s
      = withUsers s (joined s ws userId (Client.currentUsername c'))).
Proof.
  intros Hjoin. apply joinChat_request in Hjoin.
  destruct Hjoin as (-> & Hname & _ & ->).
  pose proof (trim_idempotent (Client.username c)) as Hidem.
  split; [now split|].
  pose proof (isRequest_joinRequest (JS.trim (Client.username c))) as Hreq.
  split.
  - intros Htaken.
    rewrite (run_ext env _ _ s
               (fun w => onMessage_join env ws userId _ _ w Hreq)).
    apply run_handleUserJoin_taken; now rewrite Hidem.
  - intros Hfree. unfold after.
    rewrite (run_ext env _ _ s
               (fun w => onMessage_join env ws userId _ _ w Hreq)).
    rewrite run_handleUserJoin_accepted by now rewrite Hidem.
    cbn [fst snd]. now rewrite Hidem.
Qed.

(** X17. A chat request written by the client's [sendMessage] is never
    dropped as empty: coming from a joined session it is recorded and
    sent to every joined session, with as content the text the user
    typed, trimmed once. *)
Theorem client_message_is_broadcast
  (ready : bool) (c c' : Client.State) (req : JS.Value)
  (env : Env) (s : ChatServer) (ws : WebSocket) (userId : string) (user : User.t) :
  Client.sendMessage ready c = (c', Some req) ->
  Map.get (users s) userId = Some user ->
  let event := chatMessageAt env 0 user (JS.trim (Client.message c)) in
  run (onMessage ws userId (Some req)) env s
  = (Normal tt, withHistory s (pushBounded (messageHistory s) event),
     transmit env (toAll (users s) event)).
Proof.
  intros Hsend Hget event. apply sendMessage_request in Hsend.
  destruct Hsend as (-> & Htext & _ & _).
  pose proof (trim_idempotent (Client.message c)) as Hidem.
  pose proof (isRequest_chatRequest (JS.trim (Client.message c))) as Hreq.
  rewrite (run_ext env _ _ s (fun w => onMessage_chat_Str env ws userId _ _ w Hreq)).
  rewrite run_handleChatMessage. unfold Spec.recordMessage. rewrite Hget, Hidem.
  apply String.eqb_neq in Htext. now rewrite Htext.
Qed.

(** X18. The client does not wait for the server's answer to a join:
    [joinChat] sets [currentUsername] as soon as the request is sent.
    When the server refuses the name as taken, the session stays
    unjoined while the client believes it has joined: the Enter key
    then writes chat requests, never a second join, and the server
    drops every one of them in silence. *)
Theorem refused_join_mutes_the_client
  (ready : bool) (c c1 : Client.State) (req : JS.Value)
  (env : Env) (s : ChatServer) (ws : WebSocket) (userId : string) :
  Client.joinChat ready c = (c1, Some req) ->
  In (JS.toLowerCase (Client.currentUsername c1)) (displayNames s) ->
  Map.get (users s) userId = None ->
  after (onMessage ws userId (Some req)) env s = s
  /\ forall typed key shiftKey ready' c2 req2 env',
       Client.handleKeyPress key shiftKey ready' (Client.setMessage c1 typed)
       = (c2, Some req2) ->
       req2 = chatRequest (JS.trim typed)
       /\ run (onMessage ws userId (Some req2)) env' s = (Normal tt, s, []).
Proof.
  intros Hjoin Htaken Hget.
  destruct (joinChat_request ready c c1 req Hjoin) as (Hreq0 & Hname & _ & Hcur).
  split.
  - subst req. unfold after.
    rewrite (run_ext env _ _ s
               (fun w => onMessage_join env ws userId _ _ w
                           (isRequest_joinRequest (JS.trim (Client.username c))))).
    rewrite run_handleUserJoin_taken; [reflexivity | now rewrite trim_idempotent |].
    rewrite trim_idempotent. now rewrite <- Hcur.
  - intros typed key shiftKey ready' c2 req2 env' Hkey.
    unfold Client.handleKeyPress in Hkey.
    destruct ((key =? "Enter")%string && negb shiftKey); [|discriminate].
    assert (Client.falsy (Client.currentUsername (Client.setMessage c1 typed)) = false)
      as Hcurrent.
    { simpl. rewrite Hcur. unfold Client.falsy. now apply String.eqb_neq. }
    rewrite Hcurrent in Hkey. cbn [negb] in Hkey.
    apply sendMessage_request in Hkey. destruct Hkey as (-> & _ & _ & _).
    split; [reflexivity|].
    apply (run_start _ env' s (Normal tt) (start s)).
    rewrite (onMessage_chat env' ws userId _ (JS.Str (JS.trim typed)))
      by reflexivity.
    unfold tryCatch. now rewrite handleChatMessage_not_joined.
Qed.

(* ----------------------------------------------------------------- *)
(** *** Scenarios of the further properties *)

Lemma unknown_type_reply_witness :
  run (onMessage 1 "user_1" (Some (JS.Object [("type", JS.Str "leave")]))) env0
    (runAll aliceJoined newChatServer)
  = (Normal tt, runAll aliceJoined newChatServer,
     [(1, errorNoticeAt env0 0 "Unknown message type")]).
Proof.
  apply (unknown_type_reply env0 (runAll aliceJoined newChatServer) 1 "user_1"
           (JS.Object [("type", JS.Str "leave")]) (JS.Str "leave")).
  - reflexivity.
  - discriminate.
  - discriminate.
Defined.

Lemma join_without_string_username_witness :
  run (onMessage 2 "user_2"
         (Some (JS.Object [("type", JS.Str "join"); ("username", JS.Number 7)])))
    env0 (runAll aliceJoined newChatServer)
  = (Normal tt, runAll aliceJoined newChatServer,
     [(2, errorNoticeAt env0 0 "Invalid message format")]).
Proof.
  apply (join_without_string_username env0 (runAll aliceJoined newChatServer) 2 "user_2"
           (JS.Object [("type", JS.Str "join"); ("username", JS.Number 7)])
           (JS.Number 7)).
  - reflexivity.
  - reflexivity.
  - reflexivity.
Defined.

Lemma chat_without_string_content_witness :
  run (onMessage 1 "user_1"
         (Some (JS.Object [("type", JS.Str "message"); ("content", JS.Number 7)])))
    env0 (runAll aliceJoined newChatServer)
  = (Normal tt, runAll aliceJoined newChatServer,
     [(1, errorNoticeAt env0 0 "Invalid message format")]).
Proof.
  apply (chat_without_string_content env0 (runAll aliceJoined newChatServer) 1 "user_1"
           (JS.Object [("type", JS.Str "message"); ("content", JS.Number 7)])
           (JS.Number 7) alice).
  - reflexivity.
  - reflexivity.
  - reflexivity.
  - reflexivity.
Defined.

Lemma join_then_leave_restores_witness :
  after (onClose "user_2") env0
    (after (handleUserJoin 2 "user_2" (JS.Str "bob")) env0
       (runAll aliceJoined newChatServer))
  = runAll aliceJoined newChatServer.
Proof.
  apply (join_then_leave_restores env0 env0 (runAll aliceJoined newChatServer) 2
           "user_2" "bob").
  - reflexivity.
  - discriminate.
  - simpl. intros [H|[]]. discriminate H.
Defined.

Lemma join_keeps_roster_order_witness :
  Map.keys
    (users (after (handleUserJoin 2 "user_2" (JS.Str "bob")) env0
              (runAll aliceJoined newChatServer)))
  = ["user_1"; "user_2"].
Proof.
  apply (join_keeps_roster_order env0 (runAll aliceJoined newChatServer) 2
           "user_2" "bob").
  - discriminate.
  - simpl. intros [H|[]]. discriminate H.
Defined.

Lemma client_join_is_accepted_or_taken_witness :
  run (onMessage 2 "user_2" (Some (joinRequest "Alice"))) env0
    (runAll aliceJoined newChatServer)
  = (Normal tt, runAll aliceJoined newChatServer,
     [(2, errorNoticeAt env0 0 "Username already taken")]).
Proof.
  apply (proj1 (proj2
           (client_join_is_accepted_or_taken true newcomer
              (Client.setUsername
                 (Client.setCurrentUsername
                    (Client.setError (Client.setIsJoining newcomer true) None) "Alice")
                 EmptyString)
              (joinRequest "Alice") env0 (runAll aliceJoined newChatServer) 2 "user_2"
              eq_refl))).
  simpl. left. reflexivity.
Defined.

Lemma client_message_is_broadcast_witness :
  run (onMessage 1 "user_1" (Some (chatRequest "hi"))) env0
    (runAll aliceJoined newChatServer)
  = (Normal tt,
     withHistory (runAll aliceJoined newChatServer) [chatMessageAt env0 0 alice "hi"],
     [(1, chatMessageAt env0 0 alice "hi")]).
Proof.
  apply (client_message_is_broadcast true chatting
           (Client.setMessage chatting EmptyString) (chatRequest "hi") env0
           (runAll aliceJoined newChatServer) 1 "user_1" alice).
  - reflexivity.
  - reflexivity.
Defined.

Lemma refused_join_mutes_the_client_witness :
  after (onMessage 2 "user_2" (Some (joinRequest "Alice"))) env0
    (runAll aliceJoined newChatServer)
  = runAll aliceJoined newChatServer.
Proof.
  apply (proj1
           (refused_join_mutes_the_client true newcomer
              (Client.setUsername
                 (Client.setCurrentUsername
                    (Client.setError (Client.setIsJoining newcomer true) None) "Alice")
                 EmptyString)
              (joinRequest "Alice") env0 (runAll aliceJoined newChatServer) 2 "user_2"
              eq_refl
              ltac:(simpl; left; reflexivity)
              eq_refl)).
Defined.

(* ----------------------------------------------------------------- *)
(** *** Two compositions *)

Lemma pushBounded_last h msg : In msg (pushBounded h msg).
Proof.
  unfold pushBounded. destruct (100 <? length (h ++ [msg])) eqn:Hlt.
  - destruct h as [|x h]; [discriminate|]. simpl. apply in_or_app. right. now left.
  - apply in_or_app. right. now left.
Qed.

(** X19. The name [System] is not reserved: where no session holds it,
    a join under that name is accepted, and a chat message of that
    session with the text of an error notice is sent to every joined
    session as an event that has the type, the sender name, the content
    (and, built in the same run, the id and the timestamp) of the
    server's own notice; only its [userId], the session's id in place
    of [system], tells the two apart. *)
Theorem system_notices_can_be_imitated
  (env1 env2 : Env) (s : ChatServer) (ws : WebSocket) (userId error : string) :
  ~ In "system" (displayNames s) ->
  JS.trim ("Error: " ++ error) = ("Error: " ++ error)%string ->
  let s1 := after (handleUserJoin ws userId (JS.Str "System")) env1 s in
  let notice := errorNoticeAt env2 0 error in
  let imitation :=
    {| ChatMessage.id := ChatMessage.id notice;
       ChatMessage.type := ChatMessage.type notice;
       ChatMessage.content := ChatMessage.content notice;
       ChatMessage.username := ChatMessage.username notice;
       ChatMessage.timestamp := ChatMessage.timestamp notice;
       ChatMessage.userId := Some userId |} in
  Map.get (users s1) userId
  = Some {| User.id := userId; User.username := "System"; User.ws := ws |}
  /\ outbox (handleChatMessage userId (JS.Str ("Error: " ++ error))) env2 s1
     = transmit env2 (toAll (users s1) imitation).
Proof.
  intros Hfree Htrim s1 notice imitation.
  assert (s1 = withUsers s (joined s ws userId "System")) as Hs1.
  { unfold s1, after.
    rewrite (run_handleUserJoin_accepted env1 s ws userId "System");
      [reflexivity | discriminate | exact Hfree]. }
  assert (Map.get (users s1) userId
          = Some {| User.id := userId; User.username := "System"; User.ws := ws |})
    as Hget.
  { rewrite Hs1. simpl. apply get_set_same. }
  split; [exact Hget|].
  unfold outbox. rewrite run_handleChatMessage. unfold Spec.recordMessage.
  rewrite Hget, Htrim. reflexivity.
Qed.

(** X20. A session that joins is sent the messages that were accepted
    before it joined, as they were broadcast: after a chat message is
    accepted, an accepted join on an open socket receives that very
    event (same id, sender, content and timestamp) in its history. *)
Theorem joiner_receives_earlier_message
  (env1 env2 : Env) (s : ChatServer) (sender text : string) (user : User.t)
  (ws : WebSocket) (userId name : string) :
  Map.get (users s) sender = Some user ->
  JS.trim text <> EmptyString ->
  JS.trim name <> EmptyString ->
  ~ In (JS.toLowerCase (JS.trim name)) (displayNames s) ->
  readyState env2 ws = OPEN ->
  let event := chatMessageAt env1 0 user (JS.trim text) in
  let s1 := after (handleChatMessage sender (JS.Str text)) env1 s in
  In (ws, event) (outbox (handleUserJoin ws userId (JS.Str name)) env2 s1).
Proof.
  intros Hget Htext Hname Hfree Hopen event s1.
  assert (s1 = withHistory s (pushBounded (messageHistory s) event)) as Hs1.
  { unfold s1. rewrite after_handleChatMessage. unfold Spec.recordMessage.
    rewrite Hget. apply String.eqb_neq in Htext. now rewrite Htext. }
  unfold outbox. rewrite run_handleUserJoin_accepted;
    [|assumption | now rewrite Hs1].
  cbn [snd]. rewrite !transmit_app. apply in_or_app. right. apply in_or_app. right.
  apply transmit_In_open; [exact Hopen|].
  unfold historyTo. apply (in_map (fun msg => (ws, msg))).
  rewrite Hs1. simpl. apply pushBounded_last.
Qed.

Lemma system_notices_can_be_imitated_witness :
  outbox (handleChatMessage "user_2" (JS.Str "Error: Username already taken")) env0
    (after (handleUserJoin 2 "user_2" (JS.Str "System")) env0
       (runAll aliceJoined newChatServer))
  = [(1, {| ChatMessage.id := messageIdAt env0 0;
            ChatMessage.type := message;
            ChatMessage.content := "Error: Username already taken";
            ChatMessage.username := "System";
            ChatMessage.timestamp := dateNow env0 2;
            ChatMessage.userId := Some "user_2" |});
     (2, {| ChatMessage.id := messageIdAt env0 0;
            ChatMessage.type := message;
            ChatMessage.content := "Error: Username already taken";
            ChatMessage.username := "System";
            ChatMessage.timestamp := dateNow env0 2;
            ChatMessage.userId := Some "user_2" |})].
Proof.
  apply (proj2
           (system_notices_can_be_imitated env0 env0 (runAll aliceJoined newChatServer)
              2 "user_2" "Username already taken"
              ltac:(simpl; intros [H|[]]; discriminate H)
              eq_refl)).
Defined.

Lemma joiner_receives_earlier_message_witness :
  In (2, chatMessageAt env0 0 alice "hi")
    (outbox (handleUserJoin 2 "user_2" (JS.Str "bob")) env0
       (after (handleChatMessage "user_1" (JS.Str " hi ")) env0
          (runAll aliceJoined newChatServer))).
Proof.
  apply (joiner_receives_earlier_message env0 env0 (runAll aliceJoined newChatServer)
           "user_1" " hi " alice 2 "user_2" "bob").
  - reflexivity.
  - discriminate.
  - discriminate.
  - simpl. intros [H|[]]. discriminate H.
  - reflexivity.
Defined.

Lemma history_well_formed_witness :
  wired aliceSaidHi
  /\ messageHistory (runAll aliceSaidHi newChatServer) = [chatMessageAt env0 0 alice "hi"]
  /\ ChatMessage.userId (chatMessageAt env0 0 alice "hi") = Some "user_1"
  /\ assignedIds aliceSaidHi newChatServer = ["user_1"; "user_2"]
  /\ (forall env k error, chatMessageAt env0 0 alice "hi" <> errorNoticeAt env k error).
Proof.
  assert (wired aliceSaidHi) as Hwired.
  { unfold wired, aliceSaidHi, aliceJoined. simpl. repeat split; left; reflexivity. }
  split; [exact Hwired|]. split; [reflexivity|]. split; [reflexivity|].
  split; [reflexivity|].
  pose proof (proj2 (proj2 (history_well_formed aliceSaidHi)) Hwired) as Hh.
  change (messageHistory (runAll aliceSaidHi newChatServer))
    with [chatMessageAt env0 0 alice "hi"] in Hh.
  apply Forall_inv in Hh. apply Hh.
Defined.

Lemma connection_ids_in_sequence_witness :
  let first := Z.to_nat 9007199254740992 in
  let trace := repeat (env0, Connection 1) (S first) in
  nth_error (assignedIds trace newChatServer) (pred first) = Some "user_9007199254740992"
  /\ nth_error (assignedIds trace newChatServer) first = Some "user_9007199254740992".
Proof.
  assert (forall n,
             (9007199254740992 <= Z.of_nat n)%Z ->
             let trace := repeat (env0, Connection 1) (S n) in
             nth_error (assignedIds trace newChatServer) (pred n)
             = Some "user_9007199254740992"
             /\ nth_error (assignedIds trace newChatServer) n
                = Some "user_9007199254740992") as Hrepeat.
  { intros n Hn trace.
    assert (connections trace = S n) as Hc by apply connections_repeat.
    destruct (connection_ids_in_sequence trace) as (_ & _ & _ & Hsame).
    split.
    - apply (Hsame n); [exact Hn | rewrite Hc; apply Nat.le_succ_diag_r].
    - apply (Hsame (S n)); [apply Z.le_trans with (1 := Hn), Nat2Z.inj_le,
                              Nat.le_succ_diag_r
                           | now rewrite Hc]. }
  apply (Hrepeat (Z.to_nat 9007199254740992)).
  rewrite Z2Nat.id; [apply Z.le_refl | discriminate].
Defined.
